(** * cockroach-operator: the version-catalog script and the e2e create suite

    A shallow embedding of [hack/update_crdb_versions.go] (tag filtering
    and semantic-version sorting) and of the e2e cluster-creation tests
    (flags, short mode, deferred teardown, ordered assertions). *)

From Stdlib Require Import Ascii String List Bool Arith Lia ZArith.
From Stdlib Require Import Sorting.Permutation Sorting.Sorted.
From stdpp Require Import base list strings gmap sorting.

Local Open Scope string_scope.
Local Open Scope list_scope.
Local Open Scope nat_scope.

(** ** Go strings

    A Go [string] is a sequence of bytes; it is kept as a [string] and
    read byte by byte through [bytes]. *)

Definition bytes (s : string) : list ascii := list_ascii_of_string s.

Definition byte_val (c : ascii) : nat := nat_of_ascii c.

(** [strings.HasPrefix]. *)
Fixpoint has_prefix (s p : list ascii) {struct p} : bool :=
  match p, s with
  | [], _ => true
  | c :: p', x :: s' => Ascii.eqb x c && has_prefix s' p'
  | _ :: _, [] => false
  end.

(** Equality of byte sequences, [s == t] in Go. *)
Fixpoint bytes_eqb (s t : list ascii) : bool :=
  match s, t with
  | [], [] => true
  | x :: s', y :: t' => Ascii.eqb x y && bytes_eqb s' t'
  | _, _ => false
  end.

(** Some suffix of [s] satisfies [P]; the scan behind [strings.Contains]
    and [strings.HasSuffix]. *)
Fixpoint exists_tail (P : list ascii -> bool) (s : list ascii) : bool :=
  P s || match s with
         | [] => false
         | _ :: s' => exists_tail P s'
         end.

Definition HasPrefix (s prefix : string) : bool :=
  has_prefix (bytes s) (bytes prefix).

Definition Contains (s substr : string) : bool :=
  exists_tail (fun t => has_prefix t (bytes substr)) (bytes s).

Definition HasSuffix (s suffix : string) : bool :=
  exists_tail (fun t => bytes_eqb t (bytes suffix)) (bytes s).

(** ** UTF-8 decoding, as [utf8.DecodeRuneInString] sizes a rune

    Only the width matters to the matcher: an ill-formed sequence decodes
    to the error rune with width 1. *)
Module utf8.

Definition between (lo hi : nat) (c : ascii) : bool :=
  (lo <=? byte_val c) && (byte_val c <=? hi).

(** The continuation bytes, 0x80..0xBF. *)
Definition locb := 128.
Definition hicb := 191.

(** Size of the sequence announced by a first byte and the range
    accepted for its second byte; [None] for a byte that cannot start a
    multi-byte rune (ASCII or invalid). *)
Definition first (c : ascii) : option (nat * (nat * nat)) :=
  let b := byte_val c in
  if b <? 194 then None                          (* 0x00..0xC1 *)
  else if b <=? 223 then Some (2, (locb, hicb))  (* 0xC2..0xDF *)
  else if b =? 224 then Some (3, (160, hicb))    (* 0xE0 *)
  else if b =? 237 then Some (3, (locb, 159))    (* 0xED *)
  else if b <=? 239 then Some (3, (locb, hicb))  (* 0xE1..0xEF *)
  else if b =? 240 then Some (4, (144, hicb))    (* 0xF0 *)
  else if b <=? 243 then Some (4, (locb, hicb))  (* 0xF1..0xF3 *)
  else if b =? 244 then Some (4, (locb, 143))    (* 0xF4 *)
  else None.                                     (* 0xF5..0xFF *)

(** Width in bytes of the rune at the head of [s] (0 on the empty
    string). *)
Definition rune_width (s : list ascii) : nat :=
  match s with
  | [] => 0
  | c :: rest =>
      match first c with
      | None => 1
      | Some (2, (lo, hi)) =>
          match rest with
          | b1 :: _ => if between lo hi b1 then 2 else 1
          | _ => 1
          end
      | Some (3, (lo, hi)) =>
          match rest with
          | b1 :: b2 :: _ =>
              if between lo hi b1 && between locb hicb b2 then 3 else 1
          | _ => 1
          end
      | Some (_, (lo, hi)) =>
          match rest with
          | b1 :: b2 :: b3 :: _ =>
              if between lo hi b1 && between locb hicb b2
                 && between locb hicb b3 then 4 else 1
          | _ => 1
          end
      end
  end.

End utf8.

(** ** The fragment of Go's [regexp] that the script's pattern uses *)
Module regexp.

(** One node of a concatenation ([regexp/syntax]: OpLiteral,
    OpAnyCharNotNL, OpBeginText, OpEndText). *)
Inductive atom : Type :=
| Literal (c : ascii)
| AnyCharNotNL
| BeginText
| EndText.

(** An alternation of concatenations. *)
Definition Regexp := list (list atom).

Definition is_unsupported (c : ascii) : bool :=
  existsb (Ascii.eqb c) (bytes "\()[]{}*+?").

(** Parser for patterns made of literals, [.], [^], [$] and [|]; any
    other metacharacter is outside the fragment. *)
Fixpoint parse_alts (p : list ascii) (cur : list atom) : option Regexp :=
  match p with
  | [] => Some [rev cur]
  | c :: p' =>
      if Ascii.eqb c "|" then
        option_map (cons (rev cur)) (parse_alts p' [])
      else if Ascii.eqb c "." then parse_alts p' (AnyCharNotNL :: cur)
      else if Ascii.eqb c "^" then parse_alts p' (BeginText :: cur)
      else if Ascii.eqb c "$" then parse_alts p' (EndText :: cur)
      else if is_unsupported c || (128 <=? byte_val c) then None
      else parse_alts p' (Literal c :: cur)
  end.

Definition Compile (pattern : string) : option Regexp :=
  parse_alts (bytes pattern) [].

(** Does the concatenation match at the current position?  [at_begin]
    says whether the position is the start of the text, [s] is the rest
    of the text.  A literal of the fragment is ASCII, so the rune at the
    head equals it exactly when the head byte does. *)
Fixpoint match_concat (ats : list atom) (at_begin : bool) (s : list ascii)
  : bool :=
  match ats with
  | [] => true
  | Literal c :: ats' =>
      match s with
      | x :: s' => Ascii.eqb x c && match_concat ats' false s'
      | [] => false
      end
  | AnyCharNotNL :: ats' =>
      match s with
      | x :: _ =>
          negb (Ascii.eqb x "010")
          && match_concat ats' false (drop (utf8.rune_width s) s)
      | [] => false
      end
  | BeginText :: ats' => at_begin && match_concat ats' at_begin s
  | EndText :: ats' =>
      match s with
      | [] => match_concat ats' at_begin s
      | _ :: _ => false
      end
  end.

Definition match_here (re : Regexp) (at_begin : bool) (s : list ascii)
  : bool :=
  existsb (fun ats => match_concat ats at_begin s) re.

(** Unanchored search.  The matcher tries every rune boundary of the
    text, the end included; [skip] counts the bytes still to pass before
    the next boundary. *)
Fixpoint search (re : Regexp) (skip : nat) (at_begin : bool)
  (s : list ascii) : bool :=
  match skip with
  | 0 =>
      match_here re at_begin s
      || match s with
         | [] => false
         | _ :: s' => search re (utf8.rune_width s - 1) false s'
         end
  | S k =>
      match s with
      | [] => false
      | _ :: s' => search re k false s'
      end
  end.

(** [regexp.MatchString]: the match flag and the compile error, if
    any. *)
Definition MatchString (pattern s : string) : bool * option string :=
  match Compile pattern with
  | Some re => (search re 0 true (bytes s), None)
  | None => (false, Some "error parsing regexp")
  end.

End regexp.

(** ** hack/update_crdb_versions.go *)

Definition crdbVersionsInvertedRegexp : string := "^v19|^v21.1.8$|latest|ubi$".
Definition crdbVersionsFileName : string := "crdb-versions.yaml".

Record tag := { Name : string }.
Record repository := { Tags : list tag }.
Record datum := { Repositories : list repository }.
Record crdbVersionsResponse := { Data : list datum }.

Definition isValid (version : string) : bool :=
  let '(match_, _) :=
    regexp.MatchString crdbVersionsInvertedRegexp version in
  negb match_.

(** The three nested [range] loops, each appending to [versions]. *)
Definition getVersions (data : crdbVersionsResponse) : list string :=
  fold_left (fun versions data =>
    fold_left (fun versions repo =>
      fold_left (fun versions tag =>
        if isValid (Name tag) then versions ++ [Name tag] else versions)
        (Tags repo) versions)
      (Repositories data) versions)
    (Data data) [].


(** The flattened tag names of a response, in document order. *)
Definition tag_names (data : crdbVersionsResponse) : list string :=
  flat_map (fun d =>
    flat_map (fun repo => map Name (Tags repo)) (Repositories d))
    (Data data).

(** [strings.CutPrefix], keeping only the remainder. *)
Fixpoint strip_prefix (s p : list ascii) {struct p}
  : option (list ascii) :=
  match p, s with
  | [], _ => Some s
  | c :: p', x :: s' => if Ascii.eqb x c then strip_prefix s' p' else None
  | _ :: _, [] => None
  end.

(** Drops one rune, which must not be a newline. *)
Definition strip_rune (s : list ascii) : option (list ascii) :=
  match s with
  | [] => None
  | x :: _ =>
      if Ascii.eqb x "010" then None else Some (drop (utf8.rune_width s) s)
  end.

(** The whole tag is [v21], one rune, [1], one rune, [8]: the unescaped
    dots of the pattern stand for any rune but a newline. *)
Definition anchored_v21_1_8 (s : string) : bool :=
  match strip_prefix (bytes s) (bytes "v21") with
  | Some s1 =>
      match strip_rune s1 with
      | Some s2 =>
          match strip_prefix s2 (bytes "1") with
          | Some s3 =>
              match strip_rune s3 with
              | Some s4 => bytes_eqb s4 (bytes "8")
              | None => false
              end
          | None => false
          end
      | None => false
      end
  | None => false
  end.

(** The tags the pattern is written to reject. *)
Definition excluded (name : string) : bool :=
  HasPrefix name "v19" || anchored_v21_1_8 name
  || Contains name "latest" || HasSuffix name "ubi".

(** The first [k] bytes of [s] are not ASCII. *)
Fixpoint high_bytes (k : nat) (s : list ascii) : bool :=
  match k, s with
  | S k', x :: s' => (128 <=? byte_val x) && high_bytes k' s'
  | _, _ => true
  end.

(** The compiled form of [crdbVersionsInvertedRegexp]. *)
Definition crdb_re : regexp.Regexp :=
  [ regexp.BeginText :: map regexp.Literal (bytes "v19");
    regexp.BeginText :: map regexp.Literal (bytes "v21")
      ++ regexp.AnyCharNotNL :: regexp.Literal "1"
      :: regexp.AnyCharNotNL :: regexp.Literal "8" :: [regexp.EndText];
    map regexp.Literal (bytes "latest");
    map regexp.Literal (bytes "ubi") ++ [regexp.EndText] ].

(** ** The packages the script imports

    The semantic-version library, [sort] and the YAML encoder are not part
    of the repository; each is taken through the interface the script
    relies on, together with its documented contract. *)
Module semver.

(** github.com/Masterminds/semver/v3: [NewVersion] parses a string or
    returns an error, [Original] gives back the string that was parsed,
    and [LessThan] is a strict weak ordering (precedence of versions). *)
Class Library : Type := {
  Version : Type;
  NewVersion : string -> Version + string;
  Original : Version -> string;
  LessThan : Version -> Version -> bool;
  Original_NewVersion :
    forall s v, NewVersion s = inl v -> Original v = s;
  LessThan_irrefl : forall a, LessThan a a = false;
  LessThan_trans :
    forall a b c,
      LessThan a b = true -> LessThan b c = true -> LessThan a c = true;
  LessThan_incomparable :
    forall a b c,
      LessThan a b = false -> LessThan b c = false -> LessThan a c = false
}.

(** [semver.Collection]: [Less(i, j)] is [c[i].LessThan(c[j])]. *)
Definition Collection_Less `{Library} (a b : Version) : bool :=
  LessThan a b.

End semver.

Module sort.

(** What [sort.Sort] asks of [Less]. *)
Record strict_weak {A : Type} (less : A -> A -> bool) : Prop := {
  sw_irrefl : forall a, less a a = false;
  sw_trans :
    forall a b c, less a b = true -> less b c = true -> less a c = true;
  sw_incomparable :
    forall a b c, less a b = false -> less b c = false -> less a c = false
}.

(** No element is less than one placed before it. *)
Definition ascending {A : Type} (less : A -> A -> bool) (l : list A) : Prop :=
  StronglySorted (fun a b => less b a = false) l.

(** [sort.Sort]: rearranges the data (by swaps only) into ascending
    order as determined by [Less]; the sort is not stable, so nothing is
    promised about the order of equal elements. *)
Class Package : Type := {
  Sort : forall {A : Type}, (A -> A -> bool) -> list A -> list A;
  Sort_Permutation :
    forall (A : Type) (less : A -> A -> bool) (l : list A),
      Permutation l (Sort less l);
  Sort_ascending :
    forall (A : Type) (less : A -> A -> bool) (l : list A),
      strict_weak less -> ascending less (Sort less l)
}.

End sort.

Module yaml.

(** gopkg.in/yaml.v3: the encoding, at a given indent, of a mapping with
    one key bound to a sequence of strings. *)
Class Encoder : Type := {
  Encode : nat -> string -> list string -> string
}.

End yaml.

(** The outcome of a call that may end in [log.Fatalf]: the message is
    logged and the process exits with status 1. *)
Inductive result (A : Type) : Type :=
| Ok (a : A)
| Fatal (msg : string).
Arguments Ok {A} a.
Arguments Fatal {A} msg.

Definition crdbVersionsUrl : string :=
  "https://catalog.redhat.com/api/containers/v1/repositories/registry/" +:+
  "registry.connect.redhat.com/repository/cockroachdb/cockroach/images?" +:+
  "exclude=data.repositories.comparison.advisory_rpm_mapping,data.brew," +:+
  "data.cpe_ids,data.top_layer_id&page_size=500&page=0".

Definition crdbVersionsFileDescription : string :=
"#
# Supported CockroachDB versions.
#
# This file contains a list of CockroachDB versions that are supported by the
# operator. hack/crdbversions/main.go uses this list to generate various
# manifests.
# Please update this file when CockroachDB releases new versions.
#
# Generated. DO NOT EDIT. This file is created via make release/gen-templates

".

(** What the process does to the outside, in order. *)
Inductive effect : Type :=
| OsCreate (name : string)
| HttpGet (url : string)
| ReadFile (name : string)
| WriteFile (name : string) (data : string) (perm : nat)
| Close (name : string)
| LogFatal (msg : string).

(** What the outside answers. *)
Record World := {
  os_Create : string -> option string;
  http_Get : string -> string + string;
  json_Decode : string -> crdbVersionsResponse + string;
  ioutil_ReadFile : string -> string + string;
  ioutil_WriteFile : string -> string -> option string
}.

Section Script.

Context {SV : semver.Library} {SO : sort.Package} {YA : yaml.Encoder}.

(** The first loop of [sortVersions]: slot [i] of [vs] receives the
    version parsed from input [i]; the first input that does not parse
    ends the process. *)
Fixpoint parse_versions (versions : list string)
  : result (list semver.Version) :=
  match versions with
  | [] => Ok []
  | r :: rest =>
      match semver.NewVersion r with
      | inr err => Fatal ("Cannot parse version : " +:+ err)
      | inl v =>
          match parse_versions rest with
          | Ok vs => Ok (v :: vs)
          | Fatal msg => Fatal msg
          end
      end
  end.

Definition sortVersions (versions : list string) : result (list string) :=
  match parse_versions versions with
  | Fatal msg => Fatal msg
  | Ok vs =>
      let vs := sort.Sort semver.Collection_Less vs in
      Ok (fold_left
            (fun sortedVersions v => sortedVersions ++ [semver.Original v])
            vs [])
  end.

Definition getData (w : World) : list effect * (crdbVersionsResponse + string) :=
  ([HttpGet crdbVersionsUrl],
   match http_Get w crdbVersionsUrl with
   | inr err => inr ("Cannot make a get request: " +:+ err)
   | inl body => json_Decode w body
   end).

Definition annotation (w : World) : list effect * result string :=
  let path := "hack/boilerplate/boilerplate.yaml.txt" in
  ([ReadFile path],
   match ioutil_ReadFile w path with
   | inr err => Fatal ("Cannot read boilerplate file: " +:+ err)
   | inl contents => Ok (contents +:+ crdbVersionsFileDescription)
   end).

(** [main]: the effects performed, ending with the fatal log line when
    the run is cut short.  A fatal exit skips the deferred [f.Close()]. *)
Definition main (w : World) : list effect :=
  let f := crdbVersionsFileName in
  match os_Create w f with
  | Some err =>
      [OsCreate f;
       LogFatal ("Cannot create " +:+ f +:+ " file: " +:+ err)]
  | None =>
      let '(e1, got) := getData w in
      match got with
      | inr err =>
          OsCreate f :: e1 ++ [LogFatal ("Cannot parse response: " +:+ err)]
      | inl responseData =>
          let versions := getVersions responseData in
          match sortVersions versions with
          | Fatal msg => OsCreate f :: e1 ++ [LogFatal msg]
          | Ok sortedVersions =>
              let b := yaml.Encode 2 "CrdbVersions" sortedVersions in
              let '(e2, ann) := annotation w in
              match ann with
              | Fatal msg => OsCreate f :: e1 ++ e2 ++ [LogFatal msg]
              | Ok a =>
                  let result := a +:+ b in
                  match ioutil_WriteFile w f result with
                  | Some err =>
                      OsCreate f :: e1 ++ e2
                      ++ [WriteFile f result 0;
                          LogFatal ("Cannot write " +:+ f +:+ " file: "
                                    +:+ err)]
                  | None =>
                      OsCreate f :: e1 ++ e2
                      ++ [WriteFile f result 0; Close f]
                  end
              end
          end
      end
  end.

End Script.

Definition is_WriteFile (e : effect) : bool :=
  match e with
  | WriteFile _ _ _ => true
  | _ => false
  end.

Definition parses `{semver.Library} (r : string) : bool :=
  match semver.NewVersion r with
  | inl _ => true
  | inr _ => false
  end.

(** The strings of [out] parse to versions in ascending precedence. *)
Definition ascending_versions `{semver.Library} (out : list string) : Prop :=
  exists vs,
    Forall2 (fun s v => semver.NewVersion s = inl v) out vs
    /\ sort.ascending semver.LessThan vs.

(** ** Reference implementations of the interfaces

    Small executable instances, used to run the script on concrete
    catalogs. *)
Module reference.

(** Releases of the form [v]MAJOR[.MINOR[.PATCH]] with components that
    fit 64 bits; the library also accepts pre-release and build
    suffixes, which this instance rejects. *)
Record version := {
  major : N;
  minor : N;
  patch : N;
  original : string
}.

Definition is_digit (c : ascii) : bool :=
  (48 <=? byte_val c) && (byte_val c <=? 57).

(** Reads a run of decimal digits; [acc] is [None] until a digit has
    been read. *)
Fixpoint read_number (s : list ascii) (acc : option N)
  : option N * list ascii :=
  match s with
  | c :: s' =>
      if is_digit c then
        read_number s'
          (Some (10 * default 0%N acc + N.of_nat (byte_val c - 48))%N)
      else (acc, s)
  | [] => (acc, [])
  end.

Definition fits_uint64 (n : N) : bool := (n <? 2 ^ 64)%N.

(** One component, then what follows it: the end of the text or a dot
    and the remaining text. *)
Definition component (s : list ascii) : option (N * option (list ascii)) :=
  match read_number s None with
  | (Some n, rest) =>
      if fits_uint64 n then
        match rest with
        | [] => Some (n, None)
        | c :: rest' =>
            if Ascii.eqb c "." then Some (n, Some rest') else None
        end
      else None
  | (None, _) => None
  end.

Definition invalid : string := "Invalid Semantic Version".

Definition new_version (s : string) : version + string :=
  let body :=
    match bytes s with
    | c :: rest => if Ascii.eqb c "v" then rest else c :: rest
    | [] => []
    end in
  match component body with
  | Some (ma, None) =>
      inl {| major := ma; minor := 0; patch := 0; original := s |}
  | Some (ma, Some r1) =>
      match component r1 with
      | Some (mi, None) =>
          inl {| major := ma; minor := mi; patch := 0; original := s |}
      | Some (mi, Some r2) =>
          match component r2 with
          | Some (pa, None) =>
              inl {| major := ma; minor := mi; patch := pa;
                     original := s |}
          | _ => inr invalid
          end
      | None => inr invalid
      end
  | None => inr invalid
  end.

Definition compare (a b : version) : comparison :=
  match (major a ?= major b)%N with
  | Eq =>
      match (minor a ?= minor b)%N with
      | Eq => (patch a ?= patch b)%N
      | c => c
      end
  | c => c
  end.

Definition less_than (a b : version) : bool :=
  match compare a b with
  | Lt => true
  | _ => false
  end.

(** Insertion sort as [sort.Sort] runs it on short slices: each element
    moves left past the elements it is less than.  [rp] is the sorted
    prefix, last element first. *)
Fixpoint insert_back {A : Type} (less : A -> A -> bool) (x : A)
  (rp : list A) : list A :=
  match rp with
  | [] => [x]
  | y :: rp' =>
      if less x y then y :: insert_back less x rp' else x :: y :: rp'
  end.

Definition insertion_sort {A : Type} (less : A -> A -> bool) (l : list A)
  : list A :=
  rev (fold_left (fun rp x => insert_back less x rp) l []).

(** A block sequence under one key, two spaces to the dash. *)
Definition encode (indent : nat) (key : string) (items : list string)
  : string :=
  key +:+ ":" +:+ String "010" ""
  +:+ String.concat ""
        (map (fun v =>
           string_of_list_ascii (repeat " "%char (indent + 2))
           +:+ "- " +:+ v +:+ String "010" "") items).

End reference.

(** A catalog with one tag that passes the filter and is no version,
    and a world that serves it without errors. *)
Definition unparsable_catalog : crdbVersionsResponse :=
  {| Data :=
       [ {| Repositories :=
              [ {| Tags := [ {| Name := "v21.1.6" |}; {| Name := "latest" |};
                             {| Name := "v20.2.5-ubi" |} ] |};
                {| Tags := [ {| Name := "v20.2.10" |}; {| Name := "nightly" |};
                             {| Name := "v19.2.1" |} ] |} ] |} ] |}.

Definition quiet_world (data : crdbVersionsResponse) : World :=
  {| os_Create := fun _ => None;
     http_Get := fun _ => inl "{}";
     json_Decode := fun _ => inl data;
     ioutil_ReadFile := fun _ => inl "# boilerplate";
     ioutil_WriteFile := fun _ _ => None |}.

(** ** The e2e cluster-creation tests *)

(** *** Package [flag]

    A flag set binds each registered flag to a cell holding its value;
    [flag.Bool] returns the address of the cell, which [flag.Parse] later
    overwrites from the command line. *)
Module flag.

Definition ptr : Type := string.

(** [flag.Bool(name, value, usage)]. *)
Definition Bool (name : string) (value : bool) (fs : gmap string bool)
  : ptr * gmap string bool :=
  (name, <[name := value]> fs).

(** [*p], read at the moment of the call. *)
Definition deref (p : ptr) (fs : gmap string bool) : bool :=
  default false (fs !! p).

(** [flag.Parse] over arguments [-name=value]; an argument naming no
    registered flag makes the process exit. *)
Fixpoint Parse (args : list (string * bool)) (fs : gmap string bool)
  : option (gmap string bool) :=
  match args with
  | [] => Some fs
  | (name, value) :: args' =>
      match fs !! name with
      | Some _ => Parse args' (<[name := value]> fs)
      | None => None
      end
  end.

End flag.

(** Go's [time.Duration], in nanoseconds. *)
Module time.
Definition Duration : Type := Z.
Definition Second : Duration := 1000000000%Z.
End time.

(** *** Values exchanged between the packages *)

(** [*testing.T], known by the name of its test. *)
Record T := { t_name : string }.

Record Logger := { log_of : T }.
Record Environment := { env_id : nat }.
Record ActiveEnv := { started : Environment }.
Record Sandbox := { sb_env : ActiveEnv; sb_of : T }.
Record Reconciler := { reconciler_log : Logger }.

(** Modelled from the spec: the resource specification built by package
    testutil, which is not among the sources.  It carries a name, a node
    count, the TLS flag, the image reference and the storage capacity and
    class. *)
Record ClusterSpec := {
  cr_name : string;
  cr_nodes : Z;
  cr_tls : bool;
  cr_image : string;
  cr_storage : option (string * string)
}.

Record ClusterBuilder := { cluster : ClusterSpec }.

(** The calls a test makes on the testing framework and on its
    collaborators, as they are observed from outside. *)
Inductive call : Type :=
| Parallel
| Skip (msg : string)
| CreateActiveEnvForTest (e : Environment)
| Start (e : Environment)
| Stop (e : Environment)
| NewDiffingSandbox (env : ActiveEnv)
| StartManager (sb : Sandbox) (r : Reconciler)
| Run (name : string)
| Create (sb : Sandbox) (cr : ClusterSpec)
| RequireClusterToBeReadyEventuallyTimeout
    (sb : Sandbox) (b : ClusterBuilder) (timeout : time.Duration)
| RequireDatabaseToFunctionInsecure (sb : Sandbox) (b : ClusterBuilder)
| RequireDatabaseToFunction (sb : Sandbox) (b : ClusterBuilder)
| RequireClusterInImagePullBackoff (sb : Sandbox) (b : ClusterBuilder)
| RequireClusterInFailedState (sb : Sandbox) (b : ClusterBuilder)
| Log (msg : string).

(** Calls registered with [defer]. *)
Inductive deferred : Type :=
| DeferStop (e : Environment).

(** *** Package [testing]: a test as a computation *)
Module testing.

(** What a running test can consult: the parsed flags, and the outside
    world, which decides whether each call on a collaborator
    succeeds. *)
Record Runtime := {
  flags : gmap string bool;
  world : call -> bool
}.

(** How a piece of test code ends: it returns, it leaves through
    [runtime.Goexit] ([t.FailNow], [t.SkipNow]), it panics, or the
    process is already dead. *)
Inductive outcome (A : Type) : Type :=
| Done (a : A)
| Goexit
| Panic (msg : string)
| Crash.
Arguments Done {A} a.
Arguments Goexit {A}.
Arguments Panic {A} msg.
Arguments Crash {A}.

Record State := {
  trace : list call;
  defers : list deferred;
  failed : bool;
  skipped : bool;
  actor_Log : option Logger;
  allocated : nat
}.

Definition M (A : Type) : Type := Runtime -> State -> outcome A * State.

#[export] Instance M_ret : MRet M := fun A a _ st => (Done a, st).

#[export] Instance M_bind : MBind M := fun A B f m rt st =>
  match m rt st with
  | (Done a, st') => f a rt st'
  | (Goexit, st') => (Goexit, st')
  | (Panic msg, st') => (Panic msg, st')
  | (Crash, st') => (Crash, st')
  end.

Definition emit (c : call) (st : State) : State :=
  {| trace := trace st ++ [c]; defers := defers st; failed := failed st;
     skipped := skipped st; actor_Log := actor_Log st;
        allocated := allocated st |}.

(** A call on the outside; the world says whether it succeeds. *)
Definition do_call (c : call) : M bool :=
  fun rt st => (Done (world rt c), emit c st).

(** [testing.Short()]: the [-test.short] flag, read when called. *)
Definition Short : M bool :=
  fun rt st => (Done (flag.deref "test.short" (flags rt)), st).

Definition t_Parallel (t : T) : M unit :=
  _ ← do_call Parallel; mret tt.

(** [t.FailNow]: marks the test failed and leaves the goroutine. *)
Definition t_FailNow {A : Type} (t : T) : M A :=
  fun _ st =>
    (Goexit,
     {| trace := trace st; defers := defers st; failed := true;
        skipped := skipped st; actor_Log := actor_Log st;
        allocated := allocated st |}).

(** [t.Skip]: logs, marks the test skipped and leaves the goroutine. *)
Definition t_Skip {A : Type} (t : T) (msg : string) : M A :=
  fun _ st =>
    let st := emit (Skip msg) st in
    (Goexit,
     {| trace := trace st; defers := defers st; failed := failed st;
        skipped := true; actor_Log := actor_Log st;
        allocated := allocated st |}).

Definition t_Log (t : T) (msg : string) : M unit :=
  _ ← do_call (Log msg); mret tt.

(** [defer]: the call is pushed on the deferred calls of the running
    function. *)
Definition defer (d : deferred) : M unit :=
  fun _ st =>
    (Done tt,
     {| trace := trace st; defers := d :: defers st; failed := failed st;
        skipped := skipped st; actor_Log := actor_Log st;
        allocated := allocated st |}).

(** A new environment object, distinct from those made before. *)
Definition fresh_Environment : M Environment :=
  fun _ st =>
    (Done {| env_id := allocated st |},
     {| trace := trace st; defers := defers st; failed := failed st;
        skipped := skipped st; actor_Log := actor_Log st;
        allocated := S (allocated st) |}).

(** [actor.Log = l]. *)
Definition set_actor_Log (l : Logger) : M unit :=
  fun _ st =>
    (Done tt,
     {| trace := trace st; defers := defers st; failed := failed st;
        skipped := skipped st; actor_Log := Some l;
        allocated := allocated st |}).

(** Runs the deferred calls, last registered first. *)
Definition run_deferred (st : State) : State :=
  fold_left (fun st d => match d with DeferStop e => emit (Stop e) st end)
    (defers st)
    {| trace := trace st; defers := []; failed := failed st;
       skipped := skipped st; actor_Log := actor_Log st;
        allocated := allocated st |}.

(** [t.Run(name, f)]: [f] runs as a subtest with its own deferred calls
    and reports whether it succeeded; its failure also marks the parent
    failed.  A panic in the subtest takes the process down. *)
Definition t_Run (t : T) (name : string) (f : T -> M unit) : M bool :=
  fun rt st =>
    let st1 := emit (Run name) st in
    let sub := {| t_name := t_name t +:+ "/" +:+ name |} in
    let back (st2 : State) (ok : bool) : State :=
      {| trace := trace st2; defers := defers st1;
         failed := failed st1 || negb ok; skipped := skipped st1;
         actor_Log := actor_Log st2; allocated := allocated st2 |} in
    match f sub rt {| trace := trace st1; defers := []; failed := false;
                      skipped := false; actor_Log := actor_Log st1;
                      allocated := allocated st1 |} with
    | (Done _, st2) | (Goexit, st2) =>
        let st3 := run_deferred st2 in
        (Done (negb (failed st3)), back st3 (negb (failed st3)))
    | (Panic _, st2) => (Crash, back (run_deferred st2) false)
    | (Crash, st2) => (Crash, back st2 false)
    end.

Inductive status : Type := PASS | FAIL | SKIP | PANIC.

Record Report := {
  calls : list call;
  verdict : status
}.

(** The framework's runner for a top-level test: the test function
    runs, then its deferred calls, on whichever path it was left (return,
    [Goexit] or panic), unless the process is already dead. *)
Definition tRunner (test : T -> M unit) (t : T) (rt : Runtime) : Report :=
  let init := {| trace := []; defers := []; failed := false;
                 skipped := false; actor_Log := None; allocated := 0 |} in
  match test t rt init with
  | (Done _, st) | (Goexit, st) =>
      let st' := run_deferred st in
      {| calls := trace st';
         verdict := if failed st' then FAIL
                    else if skipped st' then SKIP else PASS |}
  | (Panic _, st) => {| calls := trace (run_deferred st); verdict := PANIC |}
  | (Crash, st) => {| calls := trace st; verdict := PANIC |}
  end.

End testing.

(** [require.NoError]. *)
Module require.
Import testing.

Definition NoError (t : T) (err : option string) : M unit :=
  match err with
  | None => mret tt
  | Some _ => t_FailNow t
  end.

End require.

(** *** Package [testenv] *)
Module testenv.
Import testing.

(** Modelled from the spec: the environment and sandbox of package
    testenv, which is not among the sources.  [Start] brings the control
    plane up or does not return (it yields no error value, so a failed
    start is a panic); [NewDiffingSandbox] and [StartManager] judge
    through [t]; [Create] submits a specification and returns the
    submission error, if any. *)
Definition CreateActiveEnvForTest : M Environment :=
  e ← fresh_Environment;
  _ ← do_call (CreateActiveEnvForTest e); mret e.

Definition Start (e : Environment) : M ActiveEnv :=
  ok ← do_call (Start e);
  if ok : bool then mret {| started := e |}
  else fun _ st => (Panic "EnvironmentStartupError", st).

Definition NewDiffingSandbox (t : T) (env : ActiveEnv) : M Sandbox :=
  ok ← do_call (NewDiffingSandbox env);
  if ok : bool then mret {| sb_env := env; sb_of := t |} else t_FailNow t.

Definition StartManager (sb : Sandbox) (t : T) (r : Reconciler) : M unit :=
  ok ← do_call (StartManager sb r);
  if ok : bool then mret tt else t_FailNow t.

Definition Create (sb : Sandbox) (cr : ClusterSpec) : M (option string) :=
  ok ← do_call (Create sb cr);
  mret (if ok : bool then None else Some "SubmissionError").

End testenv.

(** *** Package [testutil] *)
Module testutil.
Import testing.

(** Modelled from the spec: the fluent builder of package testutil
    ([NewBuilder], [WithNodeCount], [WithTLS], [WithImage],
    [WithPVDataStore], [Cr]), which is not among the sources.  A new
    builder is insecure until [WithTLS] is called; each option sets its
    own field and leaves the others. *)
Definition NewBuilder (name : string) : ClusterBuilder :=
  {| cluster := {| cr_name := name; cr_nodes := 0; cr_tls := false;
                   cr_image := ""; cr_storage := None |} |}.

Definition WithNodeCount (c : Z) (b : ClusterBuilder) : ClusterBuilder :=
  let s := cluster b in
  {| cluster := {| cr_name := cr_name s; cr_nodes := c;
                   cr_tls := cr_tls s; cr_image := cr_image s;
                   cr_storage := cr_storage s |} |}.

Definition WithTLS (b : ClusterBuilder) : ClusterBuilder :=
  let s := cluster b in
  {| cluster := {| cr_name := cr_name s; cr_nodes := cr_nodes s;
                   cr_tls := true; cr_image := cr_image s;
                   cr_storage := cr_storage s |} |}.

Definition WithImage (image : string) (b : ClusterBuilder)
  : ClusterBuilder :=
  let s := cluster b in
  {| cluster := {| cr_name := cr_name s; cr_nodes := cr_nodes s;
                   cr_tls := cr_tls s; cr_image := image;
                   cr_storage := cr_storage s |} |}.

Definition WithPVDataStore (size storageClass : string)
  (b : ClusterBuilder) : ClusterBuilder :=
  let s := cluster b in
  {| cluster := {| cr_name := cr_name s; cr_nodes := cr_nodes s;
                   cr_tls := cr_tls s; cr_image := cr_image s;
                   cr_storage := Some (size, storageClass) |} |}.

Definition Cr (b : ClusterBuilder) : ClusterSpec := cluster b.

(** Modelled from the spec: the convergence assertions of package
    testutil, which are not among the sources.  Each polls the sandbox
    within its time budget and either returns, when the target state was
    observed, or fails the test on the spot. *)
Definition required (t : T) (c : call) : M unit :=
  ok ← do_call c; if ok : bool then mret tt else t_FailNow t.

Definition RequireClusterToBeReadyEventuallyTimeout
  (t : T) (sb : Sandbox) (b : ClusterBuilder) (timeout : time.Duration)
  : M unit :=
  required t (RequireClusterToBeReadyEventuallyTimeout sb b timeout).

Definition RequireDatabaseToFunctionInsecure
  (t : T) (sb : Sandbox) (b : ClusterBuilder) : M unit :=
  required t (RequireDatabaseToFunctionInsecure sb b).

Definition RequireDatabaseToFunction
  (t : T) (sb : Sandbox) (b : ClusterBuilder) : M unit :=
  required t (RequireDatabaseToFunction sb b).

Definition RequireClusterInImagePullBackoff
  (t : T) (sb : Sandbox) (b : ClusterBuilder) : M unit :=
  required t (RequireClusterInImagePullBackoff sb b).

Definition RequireClusterInFailedState
  (t : T) (sb : Sandbox) (b : ClusterBuilder) : M unit :=
  required t (RequireClusterInFailedState sb b).

Record Step := {
  Name : string;
  Test : T -> M unit
}.

Definition Steps : Type := list Step.

(** Modelled from the spec: the step runner [Steps.Run], which is not
    among the sources.  The steps run in declared order, each as a
    subtest; the first step that fails halts the run and fails the
    test. *)
Fixpoint Run (ss : Steps) (t : T) : M unit :=
  match ss with
  | [] => mret tt
  | s :: ss' =>
      ok ← t_Run t (Name s) (Test s);
      if ok : bool then Run ss' t else t_FailNow t
  end.

End testutil.

(** *** Package [e2e]: flags and tests *)
Module e2e.
Import testing.

(** [zapr.NewLogger(zaptest.NewLogger(t))]. *)
Definition NewLogger (t : T) : Logger := {| log_of := t |}.

(** [controller.InitClusterReconcilerWithLogger]. *)
Definition InitClusterReconcilerWithLogger (l : Logger) : Reconciler :=
  {| reconciler_log := l |}.

(** The package-level variables. *)
Record Globals := {
  parallel : bool;
  pvc : flag.ptr;
  env : option ActiveEnv
}.

(** The [var] declarations, run when the package is initialised:
    [parallel] is the value read through the pointer at that moment,
    [pvc] is the pointer itself, [env] is nil. *)
Definition package_init (fs : gmap string bool)
  : Globals * gmap string bool :=
  let '(p, fs) := flag.Bool "parallel" false fs in
  let parallel := flag.deref p fs in
  let '(pvc, fs) := flag.Bool "pvc" false fs in
  ({| parallel := parallel; pvc := pvc; env := None |}, fs).

(** Start of the test binary: package initialisation, registration of
    the framework's own flags, then [flag.Parse] on the command line. *)
Definition start (args : list (string * bool))
  : option (Globals * gmap string bool) :=
  let '(g, fs) := package_init ∅ in
  let '(_, fs) := flag.Bool "test.short" false fs in
  match flag.Parse args fs with
  | Some fs => Some (g, fs)
  | None => None
  end.

Notation "b |> f" := (f b) (at level 71, left associativity, only parsing).

Section Tests.

(** The package variables, as initialised. *)
Variable G : Globals.

Definition TestCreateInsecureCluster (t : T) : M unit :=
  (if parallel G then t_Parallel t else mret tt);;
  short ← Short;
  (if short : bool then t_Skip t "skipping test in short mode."
   else mret tt);;
  let testLog := NewLogger t in
  set_actor_Log testLog;;
  e ← testenv.CreateActiveEnvForTest;
  env ← testenv.Start e;
  defer (DeferStop e);;
  sb ← testenv.NewDiffingSandbox t env;
  testenv.StartManager sb t (InitClusterReconcilerWithLogger testLog);;
  let builder :=
    testutil.NewBuilder "crdb" |> testutil.WithNodeCount 3
    |> testutil.WithImage "cockroachdb/cockroach:v21.1.6"
    |> testutil.WithPVDataStore "1Gi" "standard" in
  let steps : testutil.Steps :=
    [ {| testutil.Name := "creates 3-node insecure cluster";
         testutil.Test := fun t =>
           err ← testenv.Create sb (testutil.Cr builder);
           require.NoError t err;;
           testutil.RequireClusterToBeReadyEventuallyTimeout
             t sb builder (500 * time.Second)%Z;;
           testutil.RequireDatabaseToFunctionInsecure t sb builder;;
           t_Log t "Done with basic cluster" |} ] in
  testutil.Run steps t.

Definition TestCreatesSecureCluster (t : T) : M unit :=
  (if parallel G then t_Parallel t else mret tt);;
  short ← Short;
  (if short : bool then t_Skip t "skipping test in short mode."
   else mret tt);;
  let testLog := NewLogger t in
  set_actor_Log testLog;;
  e ← testenv.CreateActiveEnvForTest;
  env ← testenv.Start e;
  defer (DeferStop e);;
  sb ← testenv.NewDiffingSandbox t env;
  testenv.StartManager sb t (InitClusterReconcilerWithLogger testLog);;
  let builder :=
    testutil.NewBuilder "crdb" |> testutil.WithNodeCount 3
    |> testutil.WithTLS
    |> testutil.WithImage "cockroachdb/cockroach:v20.2.10"
    |> testutil.WithPVDataStore "1Gi" "standard" in
  let steps : testutil.Steps :=
    [ {| testutil.Name := "creates 3-node secure cluster";
         testutil.Test := fun t =>
           err ← testenv.Create sb (testutil.Cr builder);
           require.NoError t err;;
           testutil.RequireClusterToBeReadyEventuallyTimeout
             t sb builder (500 * time.Second)%Z;;
           testutil.RequireDatabaseToFunction t sb builder;;
           t_Log t "Done with basic cluster" |} ] in
  testutil.Run steps t.

Definition TestCreateSecureClusterWithInvalidVersion (t : T) : M unit :=
  (if parallel G then t_Parallel t else mret tt);;
  short ← Short;
  (if short : bool then t_Skip t "skipping test in short mode."
   else mret tt);;
  let testLog := NewLogger t in
  set_actor_Log testLog;;
  e ← testenv.CreateActiveEnvForTest;
  env ← testenv.Start e;
  defer (DeferStop e);;
  sb ← testenv.NewDiffingSandbox t env;
  testenv.StartManager sb t (InitClusterReconcilerWithLogger testLog);;
  let builder :=
    testutil.NewBuilder "crdb" |> testutil.WithNodeCount 3
    |> testutil.WithTLS
    |> testutil.WithImage "cockroachdb/cockroach:v20.2.555"
    |> testutil.WithPVDataStore "1Gi" "standard" in
  let steps : testutil.Steps :=
    [ {| testutil.Name :=
           "creates 3-node secure cluster with invalid image";
         testutil.Test := fun t =>
           err ← testenv.Create sb (testutil.Cr builder);
           require.NoError t err;;
           testutil.RequireClusterInImagePullBackoff t sb builder;;
           testutil.RequireClusterInFailedState t sb builder;;
           t_Log t "Done with basic invalid cluster" |} ] in
  testutil.Run steps t.

Definition TestCreateSecureClusterWithNonCRDBImage (t : T) : M unit :=
  (if parallel G then t_Parallel t else mret tt);;
  short ← Short;
  (if short : bool then t_Skip t "skipping test in short mode."
   else mret tt);;
  let testLog := NewLogger t in
  set_actor_Log testLog;;
  e ← testenv.CreateActiveEnvForTest;
  env ← testenv.Start e;
  defer (DeferStop e);;
  sb ← testenv.NewDiffingSandbox t env;
  testenv.StartManager sb t (InitClusterReconcilerWithLogger testLog);;
  let builder :=
    testutil.NewBuilder "crdb" |> testutil.WithNodeCount 3
    |> testutil.WithTLS
    |> testutil.WithImage "nginx:latest"
    |> testutil.WithPVDataStore "1Gi" "standard" in
  let steps : testutil.Steps :=
    [ {| testutil.Name :=
           "creates 3-node secure cluster with invalid image";
         testutil.Test := fun t =>
           err ← testenv.Create sb (testutil.Cr builder);
           require.NoError t err;;
           testutil.RequireClusterInFailedState t sb builder;;
           t_Log t
             "Done with basic invalid cluster with image other than crdb"
      |} ] in
  testutil.Run steps t.

(** The top-level tests of the package, in source order. *)
Definition suite : list (string * (T -> M unit)) :=
  [ ("TestCreateInsecureCluster", TestCreateInsecureCluster);
    ("TestCreatesSecureCluster", TestCreatesSecureCluster);
    ("TestCreateSecureClusterWithInvalidVersion",
      TestCreateSecureClusterWithInvalidVersion);
    ("TestCreateSecureClusterWithNonCRDBImage",
      TestCreateSecureClusterWithNonCRDBImage) ].

(** One top-level test under the framework's runner. *)
Definition run (rt : Runtime) (test : string * (T -> M unit)) : Report :=
  tRunner (snd test) {| t_name := fst test |} rt.

End Tests.

(** The whole binary on a command line: [None] when flag parsing
    rejects it, otherwise the report of each test. *)
Definition go_test (args : list (string * bool)) (w : call -> bool)
  : option (list Report) :=
  match start args with
  | Some (g, fs) =>
      Some (map (run {| flags := fs; world := w |}) (suite g))
  | None => None
  end.

End e2e.

(** The objects of a test named [name]: its only environment and its
    sandbox. *)
Definition the_env : Environment := {| env_id := 0 |}.
Definition the_sandbox (name : string) : Sandbox :=
  {| sb_env := {| started := the_env |}; sb_of := {| t_name := name |} |}.
Definition the_reconciler (name : string) : Reconciler :=
  {| reconciler_log := {| log_of := {| t_name := name |} |} |}.

(** A world in which every call succeeds. *)
Definition all_good : call -> bool := fun _ => true.

Definition is_Parallel (c : call) : bool :=
  match c with Parallel => true | _ => false end.

(** Anything past the short-mode check: creating or starting an
    environment, a sandbox or a manager, running a step, submitting a
    resource, or asserting on it. *)
Definition does_work (c : call) : bool :=
  match c with
  | Parallel | Skip _ => false
  | _ => true
  end.

(** The assertions of a step, each made only if those before it held;
    the closing log line follows the last one. *)
Fixpoint assertions (w : call -> bool) (cs : list call) (done : string)
  : list call * bool :=
  match cs with
  | [] => ([Log done], true)
  | c :: cs' =>
      if w c then
        let '(tr, ok) := assertions w cs' done in (c :: tr, ok)
      else ([c], false)
  end.

(** The course every test of the suite follows, spelled out call by
    call: the optional [t.Parallel], the short-mode skip, the bring-up of
    environment, sandbox and manager, the single step, and the deferred
    [Stop]. *)
Definition course (par short : bool) (w : call -> bool) (name step : string)
  (cr : ClusterSpec) (checks : list call) (done : string) : testing.Report :=
  let sb := the_sandbox name in
  let mark := if par then [Parallel] else [] in
  if short then
    {| testing.calls := mark ++ [Skip "skipping test in short mode."];
       testing.verdict := testing.SKIP |}
  else if negb (w (Start the_env)) then
    {| testing.calls :=
         mark ++ [CreateActiveEnvForTest the_env; Start the_env];
       testing.verdict := testing.PANIC |}
  else
    let '(body, ok) :=
      if negb (w (NewDiffingSandbox (sb_env sb))) then
        ([NewDiffingSandbox (sb_env sb)], false)
      else if negb (w (StartManager sb (the_reconciler name))) then
        ([NewDiffingSandbox (sb_env sb);
          StartManager sb (the_reconciler name)], false)
      else
        let '(tr, ok) := assertions w (Create sb cr :: checks) done in
        (NewDiffingSandbox (sb_env sb)
         :: StartManager sb (the_reconciler name) :: Run step :: tr, ok) in
    {| testing.calls :=
         mark ++ CreateActiveEnvForTest the_env :: Start the_env :: body
         ++ [Stop the_env];
       testing.verdict := if ok then testing.PASS else testing.FAIL |}.

Definition insecure_cluster : ClusterBuilder :=
  {| cluster := {| cr_name := "crdb"; cr_nodes := 3; cr_tls := false;
                   cr_image := "cockroachdb/cockroach:v21.1.6";
                   cr_storage := Some ("1Gi", "standard") |} |}.

Definition secure_cluster (image : string) : ClusterBuilder :=
  {| cluster := {| cr_name := "crdb"; cr_nodes := 3; cr_tls := true;
                   cr_image := image;
                   cr_storage := Some ("1Gi", "standard") |} |}.

Definition is_Stop (c : call) : bool :=
  match c with Stop _ => true | _ => false end.

(** The flag cells once the package and the framework have registered
    their flags, before any argument is parsed. *)
Definition registered_flags : gmap string bool :=
  <["test.short" := false]> (snd (e2e.package_init ∅)).

(** Every call made by the suite, test after test. *)
Definition calls_made (reports : option (list testing.Report)) : list call :=
  match reports with
  | Some rs => concat (map testing.calls rs)
  | None => []
  end.

(** The reading under which [-pvc] would enable further test variants:
    with the flag set, the suite makes some call that it does not make
    without it. *)
Definition pvc_enables_variants (w : call -> bool) : Prop :=
  exists c,
    In c (calls_made (e2e.go_test [("pvc", true)] w))
    /\ ~ In c (calls_made (e2e.go_test [] w)).

(** Two flag sets with the same registered names that differ at most in
    the cell of [-pvc]. *)
Definition same_but_pvc (fs fs' : gmap string bool) : Prop :=
  (forall n, is_Some (fs !! n) <-> is_Some (fs' !! n))
  /\ (forall n, n <> "pvc" -> fs !! n = fs' !! n).

(** The package variables after initialisation. *)
Definition initial_globals : e2e.Globals := fst (e2e.package_init ∅).

(** A run without arguments in which every call succeeds. *)
Definition quiet_run : testing.Runtime :=
  {| testing.flags := registered_flags; testing.world := all_good |}.

(** A run in short mode. *)
Definition short_run : testing.Runtime :=
  {| testing.flags := <["test.short" := true]> registered_flags;
     testing.world := all_good |}.

(** A world in which clusters never become ready and never reach the
    failed state. *)
Definition stuck_world : call -> bool := fun c =>
  match c with
  | RequireClusterToBeReadyEventuallyTimeout _ _ _ => false
  | RequireClusterInFailedState _ _ => false
  | _ => true
  end.

Definition stuck_run : testing.Runtime :=
  {| testing.flags := registered_flags; testing.world := stuck_world |}.

(** ** Further vocabulary for the script and the tests *)

(** A response holding the given tag names in one repository. *)
Definition response_of (names : list string) : crdbVersionsResponse :=
  {| Data := [ {| Repositories :=
                    [ {| Tags := map (fun n => {| Name := n |}) names |} ] |} ] |}.

(** The seven-byte tag [v21], [a], [1], [b], [8]. *)
Definition v21_with (a b : ascii) : string :=
  "v21" +:+ String a ("1" +:+ String b "8").

Definition is_Close (e : effect) : bool :=
  match e with Close _ => true | _ => false end.

Definition is_LogFatal (e : effect) : bool :=
  match e with LogFatal _ => true | _ => false end.

Definition is_HttpGet (e : effect) : bool :=
  match e with HttpGet _ => true | _ => false end.

Definition boilerplate_path : string := "hack/boilerplate/boilerplate.yaml.txt".

Definition is_Create (c : call) : bool :=
  match c with Create _ _ => true | _ => false end.

Definition is_Start (c : call) : bool :=
  match c with Start _ => true | _ => false end.

(** The assertions of package testutil. *)
Definition is_assertion (c : call) : bool :=
  match c with
  | RequireClusterToBeReadyEventuallyTimeout _ _ _
  | RequireDatabaseToFunctionInsecure _ _
  | RequireDatabaseToFunction _ _
  | RequireClusterInImagePullBackoff _ _
  | RequireClusterInFailedState _ _ => true
  | _ => false
  end.

(** The calls whose failure ends the test: the start of the environment
    and every call judged through [t]. *)
Definition decisive (c : call) : bool :=
  match c with
  | Start _ | NewDiffingSandbox _ | StartManager _ _ | Create _ _ => true
  | _ => is_assertion c
  end.

(** A trace cut short at the first decisive call that fails: nothing
    follows a failed start, and only the deferred [Stop] follows any other
    failure. *)
Fixpoint cut (w : call -> bool) (tr : list call) : list call :=
  match tr with
  | [] => []
  | c :: tr' =>
      c :: if decisive c && negb (w c) then
             if is_Start c then [] else List.filter is_Stop tr'
           else cut w tr'
  end.


(** A catalog whose kept tags are all versions. *)
Definition clean_catalog : crdbVersionsResponse :=
  {| Data :=
       [ {| Repositories :=
              [ {| Tags := [ {| Name := "v21.1.6" |}; {| Name := "latest" |};
                             {| Name := "v20.2.5-ubi" |} ] |};
                {| Tags := [ {| Name := "v20.2.10" |};
                             {| Name := "v19.2.1" |} ] |} ] |} ] |}.

(** A world whose catalog request fails. *)
Definition offline_world : World :=
  {| os_Create := fun _ => None;
     http_Get := fun _ => inr "dial tcp: no route to host";
     json_Decode := fun _ => inr "unexpected end of JSON input";
     ioutil_ReadFile := fun _ => inl "# boilerplate";
     ioutil_WriteFile := fun _ _ => None |}.

(** A run in which the environment does not start. *)
Definition no_start_run : testing.Runtime :=
  {| testing.flags := registered_flags;
     testing.world := fun c => match c with Start _ => false | _ => true end |}.

(** ** The tag filter *)

Example compile_pattern :
  regexp.Compile crdbVersionsInvertedRegexp = Some crdb_re.
Proof. reflexivity. Qed.

Example isValid_examples :
  map isValid ["v21.1.6"; "v19.2.0"; "v21.1.8"; "v21x1y8"; "v21.1.80";
               "latest"; "v20.2.0-ubi"; "v20.2.5"; "xv19"; "ubiq"]
  = [true; false; false; false; true; false; false; true; true; true].
Proof. vm_compute. reflexivity. Qed.

Section StringFacts.

Lemma has_prefix_spec s p :
  has_prefix s p = true <-> exists t, s = p ++ t.
Proof.
  revert s; induction p as [|c p IH]; intros s; simpl.
  - split; [intros _; exists s; reflexivity | reflexivity].
  - destruct s as [|x s].
    + split; [discriminate | intros [t Ht]; discriminate].
    + rewrite andb_true_iff, Ascii.eqb_eq, IH. split.
      * intros [-> [t ->]]. eauto.
      * intros [t Ht]. injection Ht as -> ->. eauto.
Qed.

Lemma bytes_eqb_spec s t : bytes_eqb s t = true <-> s = t.
Proof.
  revert t; induction s as [|x s IH]; intros [|y t]; simpl;
    try (split; [discriminate | congruence]); [tauto |].
  rewrite andb_true_iff, Ascii.eqb_eq, IH. split.
  - intros [-> ->]; reflexivity.
  - intros H; injection H; auto.
Qed.

Lemma exists_tail_spec P s :
  exists_tail P s = true <-> exists a t, s = a ++ t /\ P t = true.
Proof.
  induction s as [|x s IH]; simpl.
  - rewrite orb_false_r. split.
    + intros H. exists [], []. auto.
    + intros (a & t & E & H). symmetry in E.
      apply app_eq_nil in E as [_ ->]. exact H.
  - rewrite orb_true_iff, IH. split.
    + intros [H | (a & t & -> & H)].
      * exists [], (x :: s). auto.
      * exists (x :: a), t. auto.
    + intros (a & t & E & H). destruct a as [|y a]; simpl in E.
      * left. congruence.
      * right. injection E as _ ->. eauto.
Qed.

Lemma exists_tail_ext P Q s :
  (forall t, P t = Q t) -> exists_tail P s = exists_tail Q s.
Proof.
  intros E. induction s as [|x s IH]; simpl; rewrite E; congruence.
Qed.

Lemma exists_tail_orb P Q s :
  exists_tail (fun t => P t || Q t) s = exists_tail P s || exists_tail Q s.
Proof.
  induction s as [|x s IH]; simpl.
  - now rewrite !orb_false_r.
  - rewrite IH. destruct (P (x :: s)), (Q (x :: s)),
      (exists_tail P s), (exists_tail Q s); reflexivity.
Qed.

(** [strings.HasPrefix], [strings.Contains] and [strings.HasSuffix] say
    what their names say. *)
Lemma HasPrefix_spec s p :
  HasPrefix s p = true <-> exists t, bytes s = bytes p ++ t.
Proof. apply has_prefix_spec. Qed.

Lemma Contains_spec s p :
  Contains s p = true <-> exists a b, bytes s = a ++ bytes p ++ b.
Proof.
  unfold Contains. rewrite exists_tail_spec. split.
  - intros (a & t & E & H). apply has_prefix_spec in H as [b ->]. eauto.
  - intros (a & b & E). exists a, (bytes p ++ b). split; [exact E |].
    apply has_prefix_spec. eauto.
Qed.

Lemma HasSuffix_spec s p :
  HasSuffix s p = true <-> exists a, bytes s = a ++ bytes p.
Proof.
  unfold HasSuffix. rewrite exists_tail_spec. split.
  - intros (a & t & E & H). apply bytes_eqb_spec in H as ->. eauto.
  - intros (a & E). exists a, (bytes p). split; [exact E |].
    now apply bytes_eqb_spec.
Qed.

End StringFacts.

Section Matcher.

Import regexp.

Lemma first_spec c n lo hi :
  utf8.first c = Some (n, (lo, hi)) ->
  (n = 2 \/ n = 3 \/ n = 4) /\ 128 <= lo.
Proof.
  unfold utf8.first, utf8.locb. intros H.
  repeat match type of H with
         | (if ?b then _ else _) = _ => destruct b
         end;
    try discriminate; injection H as <- <- _; lia.
Qed.

Lemma between_high lo hi b :
  128 <= lo -> utf8.between lo hi b = true -> (128 <=? byte_val b) = true.
Proof.
  unfold utf8.between. intros Hlo H.
  apply andb_true_iff in H as [H _].
  apply Nat.leb_le in H. apply Nat.leb_le. lia.
Qed.

(** The bytes of a rune after its first one are continuation bytes. *)
Lemma rune_width_high x s :
  high_bytes (utf8.rune_width (x :: s) - 1) s = true.
Proof.
  unfold utf8.rune_width.
  destruct (utf8.first x) as [[n [lo hi]]|] eqn:E; [|reflexivity].
  apply first_spec in E as [Hn Hlo].
  assert (Hcb : 128 <= utf8.locb) by (unfold utf8.locb; lia).
  destruct Hn as [-> | [-> | ->]].
  - destruct s as [|b1 s]; [reflexivity |].
    destruct (utf8.between lo hi b1) eqn:B1; [|reflexivity].
    cbn [high_bytes Nat.sub andb]. now rewrite (between_high _ _ _ Hlo B1).
  - destruct s as [|b1 [|b2 s]]; try reflexivity.
    destruct (utf8.between lo hi b1) eqn:B1; [|reflexivity].
    destruct (utf8.between utf8.locb utf8.hicb b2) eqn:B2; [|reflexivity].
    cbn [high_bytes Nat.sub andb]. now rewrite (between_high _ _ _ Hlo B1),
      (between_high _ _ _ Hcb B2).
  - destruct s as [|b1 [|b2 [|b3 s]]]; try reflexivity.
    destruct (utf8.between lo hi b1) eqn:B1; [|reflexivity].
    destruct (utf8.between utf8.locb utf8.hicb b2) eqn:B2; [|reflexivity].
    destruct (utf8.between utf8.locb utf8.hicb b3) eqn:B3; [|reflexivity].
    cbn [high_bytes Nat.sub andb]. now rewrite (between_high _ _ _ Hlo B1),
      (between_high _ _ _ Hcb B2), (between_high _ _ _ Hcb B3).
Qed.

Lemma high_byte_not_ascii x c :
  (128 <=? byte_val x) = true -> byte_val c < 128 -> Ascii.eqb x c = false.
Proof.
  intros H Hc. apply Nat.leb_le in H.
  destruct (Ascii.eqb_spec x c) as [-> |]; [lia | reflexivity].
Qed.

(** A run of literals is a prefix test. *)
Lemma match_literals p rest b s :
  p <> [] ->
  match_concat (map Literal p ++ rest) b s
  = match strip_prefix s p with
    | Some s' => match_concat rest false s'
    | None => false
    end.
Proof.
  revert b s. induction p as [|c p IH]; intros b s Hp; [congruence |].
  simpl. destruct s as [|x s]; [reflexivity |].
  destruct (Ascii.eqb x c); [|reflexivity]. simpl.
  destruct p as [|c' p]; [reflexivity |]. now apply IH.
Qed.

Lemma strip_prefix_has_prefix s p :
  has_prefix s p = match strip_prefix s p with Some _ => true | None => false end.
Proof.
  revert s. induction p as [|c p IH]; intros s; simpl; [reflexivity |].
  destruct s as [|x s]; [reflexivity |].
  destruct (Ascii.eqb x c); simpl; auto.
Qed.

Lemma strip_prefix_eqb s p :
  bytes_eqb s p
  = match strip_prefix s p with Some [] => true | _ => false end.
Proof.
  revert s. induction p as [|c p IH]; intros s; simpl.
  - destruct s; reflexivity.
  - destruct s as [|x s]; [reflexivity |].
    simpl. destruct (Ascii.eqb x c); simpl; auto.
Qed.

(** What the four alternatives test at one position. *)
Lemma match_here_crdb b s :
  match_here crdb_re b s
  = (b && has_prefix s (bytes "v19"))
    || (b && anchored_v21_1_8 (string_of_list_ascii s))
    || has_prefix s (bytes "latest")
    || bytes_eqb s (bytes "ubi").
Proof.
  unfold match_here, crdb_re, existsb.
  rewrite orb_false_r, !orb_assoc.
  apply (f_equal2 orb); [apply (f_equal2 orb); [apply (f_equal2 orb) |] |].
  - cbn [match_concat]. apply (f_equal2 andb); [reflexivity |].
    rewrite <- (app_nil_r (map Literal (bytes "v19"))).
    rewrite match_literals by discriminate.
    rewrite strip_prefix_has_prefix.
    destruct (strip_prefix s (bytes "v19")); reflexivity.
  - cbn [match_concat]. apply (f_equal2 andb); [reflexivity |].
    rewrite match_literals by discriminate.
    unfold anchored_v21_1_8.
    replace (bytes (string_of_list_ascii s)) with s
      by (unfold bytes; now rewrite list_ascii_of_string_of_list_ascii).
    destruct (strip_prefix s (bytes "v21")) as [s1|]; [|reflexivity].
    unfold strip_rune. cbn [match_concat].
    destruct s1 as [|x1 s1]; [reflexivity |].
    destruct (Ascii.eqb x1 "010"); [reflexivity |]. cbn [negb andb].
    set (s2 := drop _ _). cbn [strip_prefix bytes list_ascii_of_string].
    destruct s2 as [|y s2]; [reflexivity |].
    destruct (Ascii.eqb y "1"); [|reflexivity]. cbn [andb].
    destruct s2 as [|x2 s2]; [reflexivity |].
    destruct (Ascii.eqb x2 "010"); [reflexivity |]. cbn [negb andb].
    set (s4 := drop _ _).
    destruct s4 as [|z s4]; [reflexivity |]. cbn [bytes_eqb].
    destruct (Ascii.eqb z "8"); [|reflexivity]. cbn [andb].
    destruct s4; reflexivity.
  - rewrite <- (app_nil_r (map Literal (bytes "latest"))).
    rewrite match_literals by discriminate.
    rewrite strip_prefix_has_prefix.
    destruct (strip_prefix s (bytes "latest")); reflexivity.
  - rewrite match_literals by discriminate.
    rewrite strip_prefix_eqb.
    destruct (strip_prefix s (bytes "ubi")) as [[|? ?]|]; reflexivity.
Qed.

Lemma match_here_crdb_high x s :
  (128 <=? byte_val x) = true -> match_here crdb_re false (x :: s) = false.
Proof.
  intros H. rewrite match_here_crdb. cbn.
  rewrite !(high_byte_not_ascii x) by (assumption || (vm_compute; lia)).
  reflexivity.
Qed.

(** Scanning rune boundaries finds the same matches as scanning every
    byte offset: no alternative can start inside a rune. *)
Lemma search_crdb_tail s k :
  high_bytes k s = true ->
  search crdb_re k false s
  = match k with
    | 0 => exists_tail (match_here crdb_re false) s
    | S _ => match s with
             | [] => false
             | _ :: s' => exists_tail (match_here crdb_re false) s'
             end
    end.
Proof.
  revert k. induction s as [|x s IH]; intros k Hk.
  - destruct k; reflexivity.
  - destruct k as [|k].
    + cbn [search exists_tail]. f_equal.
      rewrite IH by apply rune_width_high.
      destruct (utf8.rune_width (x :: s) - 1) eqn:W; [reflexivity |].
      pose proof (rune_width_high x s) as Hh. rewrite W in Hh.
      destruct s as [|y s]; [reflexivity |].
      cbn [high_bytes] in Hh. apply andb_true_iff in Hh as [Hy _].
      cbn [exists_tail]. now rewrite match_here_crdb_high.
    + cbn [search]. cbn [high_bytes] in Hk.
      apply andb_true_iff in Hk as [_ Hk].
      rewrite IH by exact Hk. destruct k as [|k]; [reflexivity |].
      destruct s as [|y s]; [reflexivity |].
      cbn [high_bytes] in Hk. apply andb_true_iff in Hk as [Hy _].
      cbn [exists_tail]. now rewrite match_here_crdb_high.
Qed.

Lemma search_crdb (v : string) :
  search crdb_re 0 true (bytes v) = excluded v.
Proof.
  unfold excluded, HasPrefix, Contains, HasSuffix.
  set (s := bytes v).
  assert (Hv : anchored_v21_1_8 v
               = anchored_v21_1_8 (string_of_list_ascii s)).
  { unfold s, bytes. now rewrite string_of_list_ascii_of_string. }
  rewrite Hv. clearbody s. clear Hv.
  destruct s as [|x s].
  - cbn [search exists_tail]. rewrite match_here_crdb. cbn [andb].
    now rewrite !orb_false_r.
  - cbn [search exists_tail].
    rewrite search_crdb_tail by apply rune_width_high.
    assert (T : forall t,
      exists_tail (match_here crdb_re false) t
      = exists_tail (fun t => has_prefix t (bytes "latest")) t
        || exists_tail (fun t => bytes_eqb t (bytes "ubi")) t).
    { intros t. rewrite <- exists_tail_orb. apply exists_tail_ext.
      intros u. rewrite match_here_crdb. reflexivity. }
    rewrite match_here_crdb. cbn [andb].
    set (a := has_prefix (x :: s) (bytes "v19")).
    set (b := anchored_v21_1_8 _).
    set (c := has_prefix (x :: s) (bytes "latest")).
    set (d := bytes_eqb (x :: s) (bytes "ubi")).
    destruct (utf8.rune_width (x :: s) - 1) eqn:W.
    + rewrite T. destruct a, b, c, d,
        (exists_tail (fun t => has_prefix t (bytes "latest")) s),
        (exists_tail (fun t => bytes_eqb t (bytes "ubi")) s); reflexivity.
    + pose proof (rune_width_high x s) as Hh. rewrite W in Hh.
      destruct s as [|y s].
      * cbn [exists_tail]. destruct a, b, c, d; reflexivity.
      * cbn [high_bytes] in Hh. apply andb_true_iff in Hh as [Hy _].
        rewrite T.
        pose proof (match_here_crdb_high y s Hy) as Hm.
        rewrite match_here_crdb in Hm. cbn [andb orb] in Hm.
        apply orb_false_iff in Hm as [Hm1 Hm2].
        cbn [exists_tail]. rewrite Hm1, Hm2. cbn [orb].
        destruct a, b, c, d,
          (exists_tail (fun t => has_prefix t (bytes "latest")) s),
          (exists_tail (fun t => bytes_eqb t (bytes "ubi")) s);
          reflexivity.
Qed.

End Matcher.

(** A tag is kept exactly when the pattern does not exclude it. *)
Lemma isValid_excluded v : isValid v = negb (excluded v).
Proof.
  unfold isValid, regexp.MatchString. rewrite compile_pattern.
  now rewrite search_crdb.
Qed.

Section Loops.

Variable keep : string -> bool.

Let step (versions : list string) (t : tag) : list string :=
  if keep (Name t) then versions ++ [Name t] else versions.

Lemma tags_loop ts acc :
  fold_left step ts acc = acc ++ List.filter keep (map Name ts).
Proof.
  revert acc. induction ts as [|t ts IH]; intros acc; simpl.
  - now rewrite app_nil_r.
  - rewrite IH. unfold step. destruct (keep (Name t)); simpl;
      [now rewrite <- app_assoc | reflexivity].
Qed.

Lemma repos_loop rs acc :
  fold_left (fun versions repo => fold_left step (Tags repo) versions)
    rs acc
  = acc ++ List.filter keep (flat_map (fun repo => map Name (Tags repo)) rs).
Proof.
  revert acc. induction rs as [|r rs IH]; intros acc; simpl.
  - now rewrite app_nil_r.
  - rewrite IH, tags_loop, List.filter_app, <- app_assoc. reflexivity.
Qed.

Lemma data_loop ds acc :
  fold_left (fun versions d =>
    fold_left (fun versions repo => fold_left step (Tags repo) versions)
      (Repositories d) versions) ds acc
  = acc ++ List.filter keep
      (flat_map (fun d =>
         flat_map (fun repo => map Name (Tags repo)) (Repositories d)) ds).
Proof.
  revert acc. induction ds as [|d ds IH]; intros acc; simpl.
  - now rewrite app_nil_r.
  - rewrite IH, repos_loop, List.filter_app, <- app_assoc. reflexivity.
Qed.

End Loops.

(** C6.  For every catalog response, [getVersions] returns, in document
    order, exactly the tag names that the inverted pattern does not match:
    a tag is dropped when it begins with [v19], matches the anchored
    [v21.1.8] alternative, contains [latest] or ends in [ubi], and every
    other tag is kept. *)
Theorem getVersions_keeps_unmatched (data : crdbVersionsResponse) :
  getVersions data
  = List.filter
      (fun name =>
         negb (fst (regexp.MatchString crdbVersionsInvertedRegexp name)))
      (tag_names data)
  /\ getVersions data
     = List.filter (fun name => negb (excluded name)) (tag_names data).
Proof.
  assert (E : getVersions data = List.filter isValid (tag_names data)).
  { unfold getVersions, tag_names. now rewrite (data_loop isValid). }
  split; rewrite E; apply List.filter_ext; intros v.
  - unfold isValid. now destruct (regexp.MatchString _ v).
  - apply isValid_excluded.
Qed.

(** ** The reference instances meet the contracts *)
Section Reference.

Import reference.

Lemma new_version_original s v : new_version s = inl v -> original v = s.
Proof.
  unfold new_version. intros H.
  repeat match type of H with
         | match ?x with _ => _ end = _ => destruct x; try discriminate
         end;
    injection H as <-; reflexivity.
Qed.

Lemma less_than_spec a b :
  less_than a b = true
  <-> (major a < major b
       \/ (major a = major b
           /\ (minor a < minor b
               \/ (minor a = minor b /\ patch a < patch b))))%N.
Proof.
  unfold less_than, compare.
  destruct (N.compare_spec (major a) (major b));
    destruct (N.compare_spec (minor a) (minor b));
    destruct (N.compare_spec (patch a) (patch b));
    split; intros; try discriminate; try reflexivity; lia.
Qed.

Lemma less_than_false a b :
  less_than a b = false <-> ~ less_than a b = true.
Proof. destruct (less_than a b); split; congruence. Qed.

Lemma less_than_strict_weak : sort.strict_weak less_than.
Proof.
  split.
  - intros a. apply less_than_false. rewrite less_than_spec. lia.
  - intros a b c. rewrite !less_than_spec. lia.
  - intros a b c. rewrite !less_than_false, !less_than_spec. lia.
Qed.

Context {A : Type} (less : A -> A -> bool).

Lemma insert_back_Permutation x rp :
  Permutation (x :: rp) (insert_back less x rp).
Proof.
  induction rp as [|y rp IH]; simpl; [reflexivity |].
  destruct (less x y); [|reflexivity].
  rewrite perm_swap. now apply perm_skip.
Qed.

Lemma insertion_loop_Permutation l rp :
  Permutation (rp ++ l) (fold_left (fun rp x => insert_back less x rp) l rp).
Proof.
  revert rp. induction l as [|x l IH]; intros rp; simpl.
  - now rewrite app_nil_r.
  - rewrite <- IH, <- insert_back_Permutation.
    symmetry. apply Permutation_middle.
Qed.

Lemma insertion_sort_Permutation l :
  Permutation l (insertion_sort less l).
Proof.
  unfold insertion_sort. rewrite <- Permutation_rev.
  exact (insertion_loop_Permutation l []).
Qed.

Hypothesis SW : sort.strict_weak less.

(** The prefix, read backwards: no element is less than a later one. *)
Let descending (rp : list A) : Prop :=
  StronglySorted (fun a b => less a b = false) rp.

Lemma less_asym x y : less x y = true -> less y x = false.
Proof.
  intros H. destruct (less y x) eqn:E; [|reflexivity].
  pose proof (sort.sw_trans _ SW _ _ _ H E) as T.
  now rewrite (sort.sw_irrefl _ SW) in T.
Qed.

Lemma insert_back_descending x rp :
  descending rp -> descending (insert_back less x rp).
Proof.
  unfold descending.
  induction rp as [|y rp IH]; intros S; simpl.
  - repeat constructor.
  - apply StronglySorted_inv in S as [S Hy].
    destruct (less x y) eqn:E.
    + constructor; [now apply IH |].
      rewrite <- (insert_back_Permutation x rp).
      constructor; [now apply less_asym | exact Hy].
    + constructor; [now constructor |].
      constructor; [exact E |].
      eapply Forall_impl; [exact Hy |].
      intros z Hz. exact (sort.sw_incomparable _ SW _ _ _ E Hz).
Qed.

Lemma insertion_loop_descending l rp :
  descending rp ->
  descending (fold_left (fun rp x => insert_back less x rp) l rp).
Proof.
  revert rp. induction l as [|x l IH]; intros rp S; simpl; [exact S |].
  apply IH. now apply insert_back_descending.
Qed.

Lemma StronglySorted_rev (R : A -> A -> Prop) l :
  StronglySorted R l -> StronglySorted (fun a b => R b a) (rev l).
Proof.
  induction 1 as [|x l S IH Hx]; simpl; [constructor |].
  apply StronglySorted_app_2; [|exact IH | repeat constructor].
  intros a b Ha Hb. apply list_elem_of_singleton in Hb as ->.
  rewrite Forall_forall in Hx. apply Hx.
  apply list_elem_of_In. apply list_elem_of_In in Ha.
  now apply in_rev.
Qed.

Lemma insertion_sort_ascending l :
  sort.ascending less (insertion_sort less l).
Proof.
  unfold sort.ascending, insertion_sort.
  apply (StronglySorted_rev (fun a b => less a b = false)).
  apply insertion_loop_descending. constructor.
Qed.

End Reference.

#[local] Instance reference_semver : semver.Library := {|
  semver.Version := reference.version;
  semver.NewVersion := reference.new_version;
  semver.Original := reference.original;
  semver.LessThan := reference.less_than;
  semver.Original_NewVersion := new_version_original;
  semver.LessThan_irrefl := sort.sw_irrefl _ less_than_strict_weak;
  semver.LessThan_trans := sort.sw_trans _ less_than_strict_weak;
  semver.LessThan_incomparable :=
    sort.sw_incomparable _ less_than_strict_weak
|}.

#[local] Instance reference_sort : sort.Package := {|
  sort.Sort := @reference.insertion_sort;
  sort.Sort_Permutation := @insertion_sort_Permutation;
  sort.Sort_ascending := fun A less l SW => insertion_sort_ascending less SW l
|}.

#[local] Instance reference_yaml : yaml.Encoder := {|
  yaml.Encode := reference.encode
|}.

Example reference_sortVersions :
  sortVersions ["v21.1.6"; "v20.2.10"; "v20.2.5"; "v21.1.0"; "v20.1.17"]
  = Ok ["v20.1.17"; "v20.2.5"; "v20.2.10"; "v21.1.0"; "v21.1.6"].
Proof. vm_compute. reflexivity. Qed.

Example reference_sortVersions_fatal :
  sortVersions ["v21.1.6"; "v20.2.10-beta"; "oops"; "v20.2.5"]
  = Fatal "Cannot parse version : Invalid Semantic Version".
Proof. vm_compute. reflexivity. Qed.

(** ** Sorting the versions *)
Section SortVersions.

Context {SV : semver.Library} {SO : sort.Package} {YA : yaml.Encoder}.

Lemma Collection_Less_strict_weak :
  sort.strict_weak semver.Collection_Less.
Proof.
  split; unfold semver.Collection_Less.
  - apply semver.LessThan_irrefl.
  - apply semver.LessThan_trans.
  - apply semver.LessThan_incomparable.
Qed.

Lemma parses_inl r : parses r = true -> exists v, semver.NewVersion r = inl v.
Proof.
  unfold parses. destruct (semver.NewVersion r) as [v|]; [eauto | discriminate].
Qed.

Lemma parses_inr r : parses r = false -> exists e, semver.NewVersion r = inr e.
Proof.
  unfold parses. destruct (semver.NewVersion r) as [|e]; [discriminate | eauto].
Qed.

(** When every input parses, the first loop fills the slice with the
    parsed versions, in input order. *)
Lemma parse_versions_ok versions :
  Forall (fun r => parses r = true) versions ->
  exists vs,
    parse_versions versions = Ok vs
    /\ Forall2 (fun s v => semver.NewVersion s = inl v) versions vs.
Proof.
  induction 1 as [|r rest Hr _ (vs & E & F)]; simpl.
  - exists []. split; [reflexivity | constructor].
  - apply parses_inl in Hr as [v Hv]. rewrite Hv, E.
    exists (v :: vs). split; [reflexivity | now constructor].
Qed.

(** The loop stops at the first input that does not parse. *)
Lemma parse_versions_fatal good bad rest err :
  Forall (fun r => parses r = true) good ->
  semver.NewVersion bad = inr err ->
  parse_versions (good ++ bad :: rest)
  = Fatal ("Cannot parse version : " +:+ err).
Proof.
  intros G B. induction G as [|r good Hr _ IH]; simpl.
  - now rewrite B.
  - apply parses_inl in Hr as [v Hv]. now rewrite Hv, IH.
Qed.

Lemma first_unparsable versions r :
  In r versions -> parses r = false ->
  exists good bad rest,
    versions = good ++ bad :: rest
    /\ Forall (fun r => parses r = true) good
    /\ parses bad = false.
Proof.
  induction versions as [|x versions IH]; intros Hin Hr; [destruct Hin |].
  destruct (parses x) eqn:Px.
  - destruct Hin as [-> | Hin]; [congruence |].
    destruct (IH Hin Hr) as (good & bad & rest & -> & G & B).
    exists (x :: good), bad, rest. repeat split; auto.
  - exists [], x, versions. repeat split; auto.
Qed.

Lemma originals_loop vs acc :
  fold_left (fun sortedVersions v => sortedVersions ++ [semver.Original v])
    vs acc
  = acc ++ map semver.Original vs.
Proof.
  revert acc. induction vs as [|v vs IH]; intros acc; simpl.
  - now rewrite app_nil_r.
  - now rewrite IH, <- app_assoc.
Qed.

Lemma parsed_originals versions vs :
  Forall2 (fun s v => semver.NewVersion s = inl v) versions vs ->
  map semver.Original vs = versions.
Proof.
  induction 1 as [|s v versions vs Hv _ IH]; simpl; [reflexivity |].
  now rewrite IH, (semver.Original_NewVersion _ _ Hv).
Qed.

Lemma parsed_reparse versions vs v :
  Forall2 (fun s v => semver.NewVersion s = inl v) versions vs ->
  In v vs -> semver.NewVersion (semver.Original v) = inl v.
Proof.
  induction 1 as [|s v' versions vs Hv _ IH]; intros Hin; [destruct Hin |].
  destruct Hin as [-> | Hin]; [|now apply IH].
  now rewrite (semver.Original_NewVersion _ _ Hv).
Qed.

Lemma sortVersions_ok versions vs :
  parse_versions versions = Ok vs ->
  sortVersions versions
  = Ok (map semver.Original (sort.Sort semver.Collection_Less vs)).
Proof.
  intros E. unfold sortVersions. rewrite E. now rewrite originals_loop.
Qed.

(** C7.  When every string of the list parses as a semantic version,
    [sortVersions] returns the same multiset of strings, arranged in
    ascending semantic-version order. *)
Theorem sortVersions_sorted_permutation (versions : list string) :
  Forall (fun r => parses r = true) versions ->
  exists out,
    sortVersions versions = Ok out
    /\ Permutation versions out
    /\ ascending_versions out.
Proof.
  intros H. destruct (parse_versions_ok _ H) as (vs & E & F).
  exists (map semver.Original (sort.Sort semver.Collection_Less vs)).
  split; [now apply sortVersions_ok |]. split.
  - rewrite <- (parsed_originals _ _ F) at 1.
    apply Permutation_map, sort.Sort_Permutation.
  - exists (sort.Sort semver.Collection_Less vs). split.
    + apply Forall2_fmap_l, Forall_Forall2_diag, Forall_forall.
      intros v Hv. apply (parsed_reparse _ _ _ F).
      apply list_elem_of_In in Hv.
      eapply Permutation_in; [|exact Hv].
      symmetry. apply sort.Sort_Permutation.
    + apply (sort.Sort_ascending _ _ _ Collection_Less_strict_weak).
Qed.

(** C10.  [sortVersions] turns the strings into versions only to order
    them and gives back each version's original text: for every input
    that parses, the output is the list of [Original()] strings of the
    sorted versions, each of them one of the input strings, unchanged,
    and the output is a permutation of the input. *)
Theorem sortVersions_returns_originals (versions : list string) :
  Forall (fun r => parses r = true) versions ->
  exists vs,
    Forall2 (fun s v => semver.NewVersion s = inl v) versions vs
    /\ map semver.Original vs = versions
    /\ sortVersions versions
       = Ok (map semver.Original (sort.Sort semver.Collection_Less vs))
    /\ Permutation versions
         (map semver.Original (sort.Sort semver.Collection_Less vs)).
Proof.
  intros H. destruct (parse_versions_ok _ H) as (vs & E & F).
  exists vs. repeat split; auto using parsed_originals, sortVersions_ok.
  rewrite <- (parsed_originals _ _ F) at 1.
  apply Permutation_map, sort.Sort_Permutation.
Qed.

Lemma sortVersions_fatal versions r :
  In r versions -> parses r = false ->
  exists good bad rest err,
    versions = good ++ bad :: rest
    /\ Forall (fun r => parses r = true) good
    /\ semver.NewVersion bad = inr err
    /\ sortVersions versions = Fatal ("Cannot parse version : " +:+ err).
Proof.
  intros Hin Hr.
  destruct (first_unparsable _ _ Hin Hr) as (good & bad & rest & -> & G & B).
  apply parses_inr in B as [err B].
  exists good, bad, rest, err. repeat split; auto.
  unfold sortVersions. now rewrite (parse_versions_fatal _ _ _ _ G B).
Qed.

(** C9.  When a tag that passed the filter does not parse as a semantic
    version, [sortVersions] ends in [log.Fatalf] at the first such tag
    (it is neither skipped nor reported through a return value), and
    [main] exits on that fatal line without ever writing the manifest. *)
Theorem main_fatal_on_unparsable_tag
  (w : World) (body : string) (data : crdbVersionsResponse) (r : string) :
  http_Get w crdbVersionsUrl = inl body ->
  json_Decode w body = inl data ->
  In r (getVersions data) ->
  parses r = false ->
  exists good bad rest err,
    getVersions data = good ++ bad :: rest
    /\ Forall (fun r => parses r = true) good
    /\ semver.NewVersion bad = inr err
    /\ sortVersions (getVersions data)
       = Fatal ("Cannot parse version : " +:+ err)
    /\ (os_Create w crdbVersionsFileName = None ->
        main w = [OsCreate crdbVersionsFileName; HttpGet crdbVersionsUrl;
                  LogFatal ("Cannot parse version : " +:+ err)])
    /\ existsb is_WriteFile (main w) = false.
Proof.
  intros Hget Hdec Hin Hr.
  destruct (sortVersions_fatal _ _ Hin Hr)
    as (good & bad & rest & err & E & G & B & F).
  exists good, bad, rest, err. repeat split; auto.
  - intros C. unfold main, getData. now rewrite C, Hget, Hdec, F.
  - unfold main, getData. rewrite Hget, Hdec, F.
    destruct (os_Create w crdbVersionsFileName); reflexivity.
Qed.

End SortVersions.

Lemma sortVersions_sorted_permutation_witness :
  Forall (fun r => parses r = true) ["v21.1.6"; "v20.2.10"; "v20.2.5"]
  /\ exists out,
       sortVersions ["v21.1.6"; "v20.2.10"; "v20.2.5"] = Ok out
       /\ Permutation ["v21.1.6"; "v20.2.10"; "v20.2.5"] out
       /\ ascending_versions out.
Proof.
  assert (H : Forall (fun r => parses r = true)
                ["v21.1.6"; "v20.2.10"; "v20.2.5"])
    by (repeat constructor).
  split; [exact H |].
  exact (sortVersions_sorted_permutation
           ["v21.1.6"; "v20.2.10"; "v20.2.5"] H).
Defined.

Lemma sortVersions_returns_originals_witness :
  Forall (fun r => parses r = true) ["v21.1.6"; "1.0"; "v20.2.5"]
  /\ exists vs,
       Forall2 (fun s v => semver.NewVersion s = inl v)
         ["v21.1.6"; "1.0"; "v20.2.5"] vs
       /\ map semver.Original vs = ["v21.1.6"; "1.0"; "v20.2.5"]
       /\ sortVersions ["v21.1.6"; "1.0"; "v20.2.5"]
          = Ok (map semver.Original (sort.Sort semver.Collection_Less vs))
       /\ Permutation ["v21.1.6"; "1.0"; "v20.2.5"]
            (map semver.Original (sort.Sort semver.Collection_Less vs)).
Proof.
  assert (H : Forall (fun r => parses r = true)
                ["v21.1.6"; "1.0"; "v20.2.5"])
    by (repeat constructor).
  split; [exact H |].
  exact (sortVersions_returns_originals ["v21.1.6"; "1.0"; "v20.2.5"] H).
Defined.

Example unparsable_catalog_filtered :
  getVersions unparsable_catalog = ["v21.1.6"; "v20.2.10"; "nightly"].
Proof. vm_compute. reflexivity. Qed.

Example unparsable_catalog_main :
  main (quiet_world unparsable_catalog)
  = [OsCreate crdbVersionsFileName; HttpGet crdbVersionsUrl;
     LogFatal "Cannot parse version : Invalid Semantic Version"].
Proof. vm_compute. reflexivity. Qed.

Lemma main_fatal_on_unparsable_tag_witness :
  let w := quiet_world unparsable_catalog in
  (http_Get w crdbVersionsUrl = inl "{}"
   /\ json_Decode w "{}" = inl unparsable_catalog
   /\ In "nightly" (getVersions unparsable_catalog)
   /\ parses "nightly" = false)
  /\ exists good bad rest err,
       getVersions unparsable_catalog = good ++ bad :: rest
       /\ Forall (fun r => parses r = true) good
       /\ semver.NewVersion bad = inr err
       /\ sortVersions (getVersions unparsable_catalog)
          = Fatal ("Cannot parse version : " +:+ err)
       /\ (os_Create w crdbVersionsFileName = None ->
           main w = [OsCreate crdbVersionsFileName; HttpGet crdbVersionsUrl;
                     LogFatal ("Cannot parse version : " +:+ err)])
       /\ existsb is_WriteFile (main w) = false.
Proof.
  intros w.
  assert (H1 : http_Get w crdbVersionsUrl = inl "{}") by reflexivity.
  assert (H2 : json_Decode w "{}" = inl unparsable_catalog) by reflexivity.
  assert (H3 : In "nightly" (getVersions unparsable_catalog))
    by (rewrite unparsable_catalog_filtered; simpl; auto).
  assert (H4 : parses "nightly" = false) by reflexivity.
  split; [auto |].
  exact (main_fatal_on_unparsable_tag w "{}" unparsable_catalog "nightly"
           H1 H2 H3 H4).
Defined.

(** ** The e2e tests, call by call *)
Section Courses.

Import testing.

Variable G : e2e.Globals.
Variable rt : Runtime.

Let short : bool := flag.deref "test.short" (flags rt).

Ltac run_course :=
  unfold short; destruct rt as [fs w];
  destruct (e2e.parallel G) eqn:Hpar;
  cbv -[flag.deref e2e.parallel]; rewrite ?Hpar;
  destruct (flag.deref "test.short" fs) eqn:Hshort;
  cbv -[flag.deref e2e.parallel];
  try reflexivity;
  repeat match goal with
         | |- context [w ?c] => destruct (w c) eqn:?; cbv -[flag.deref e2e.parallel]
         end;
  reflexivity.

Lemma course_TestCreateInsecureCluster :
  e2e.run rt ("TestCreateInsecureCluster", e2e.TestCreateInsecureCluster G)
  = course (e2e.parallel G) short (world rt) "TestCreateInsecureCluster"
      "creates 3-node insecure cluster" (cluster insecure_cluster)
      [ RequireClusterToBeReadyEventuallyTimeout
          (the_sandbox "TestCreateInsecureCluster") insecure_cluster
          (500 * time.Second)%Z;
        RequireDatabaseToFunctionInsecure
          (the_sandbox "TestCreateInsecureCluster") insecure_cluster ]
      "Done with basic cluster".
Proof. run_course. Qed.

Lemma course_TestCreatesSecureCluster :
  e2e.run rt ("TestCreatesSecureCluster", e2e.TestCreatesSecureCluster G)
  = course (e2e.parallel G) short (world rt) "TestCreatesSecureCluster"
      "creates 3-node secure cluster"
      (cluster (secure_cluster "cockroachdb/cockroach:v20.2.10"))
      [ RequireClusterToBeReadyEventuallyTimeout
          (the_sandbox "TestCreatesSecureCluster")
          (secure_cluster "cockroachdb/cockroach:v20.2.10")
          (500 * time.Second)%Z;
        RequireDatabaseToFunction
          (the_sandbox "TestCreatesSecureCluster")
          (secure_cluster "cockroachdb/cockroach:v20.2.10") ]
      "Done with basic cluster".
Proof. run_course. Qed.

Lemma course_TestCreateSecureClusterWithInvalidVersion :
  e2e.run rt ("TestCreateSecureClusterWithInvalidVersion",
              e2e.TestCreateSecureClusterWithInvalidVersion G)
  = course (e2e.parallel G) short (world rt)
      "TestCreateSecureClusterWithInvalidVersion"
      "creates 3-node secure cluster with invalid image"
      (cluster (secure_cluster "cockroachdb/cockroach:v20.2.555"))
      [ RequireClusterInImagePullBackoff
          (the_sandbox "TestCreateSecureClusterWithInvalidVersion")
          (secure_cluster "cockroachdb/cockroach:v20.2.555");
        RequireClusterInFailedState
          (the_sandbox "TestCreateSecureClusterWithInvalidVersion")
          (secure_cluster "cockroachdb/cockroach:v20.2.555") ]
      "Done with basic invalid cluster".
Proof. run_course. Qed.

Lemma course_TestCreateSecureClusterWithNonCRDBImage :
  e2e.run rt ("TestCreateSecureClusterWithNonCRDBImage",
              e2e.TestCreateSecureClusterWithNonCRDBImage G)
  = course (e2e.parallel G) short (world rt)
      "TestCreateSecureClusterWithNonCRDBImage"
      "creates 3-node secure cluster with invalid image"
      (cluster (secure_cluster "nginx:latest"))
      [ RequireClusterInFailedState
          (the_sandbox "TestCreateSecureClusterWithNonCRDBImage")
          (secure_cluster "nginx:latest") ]
      "Done with basic invalid cluster with image other than crdb".
Proof. run_course. Qed.

End Courses.

Section Suite.

Import testing.

Ltac each_test :=
  unfold e2e.suite;
  repeat apply List.Forall_cons; try apply List.Forall_nil;
  [ rewrite course_TestCreateInsecureCluster
  | rewrite course_TestCreatesSecureCluster
  | rewrite course_TestCreateSecureClusterWithInvalidVersion
  | rewrite course_TestCreateSecureClusterWithNonCRDBImage ].

Ltac cases_of w :=
  cbn;
  repeat match goal with
         | |- context [w ?c] => destruct (w c) eqn:?; cbn
         end.

(** The reports depend on the flags through [-test.short] only. *)
Lemma suite_reports_short G fs fs' w :
  flag.deref "test.short" fs = flag.deref "test.short" fs' ->
  map (e2e.run {| flags := fs; world := w |}) (e2e.suite G)
  = map (e2e.run {| flags := fs'; world := w |}) (e2e.suite G).
Proof.
  intros H. unfold e2e.suite. cbn [map].
  rewrite !course_TestCreateInsecureCluster, !course_TestCreatesSecureCluster,
    !course_TestCreateSecureClusterWithInvalidVersion,
    !course_TestCreateSecureClusterWithNonCRDBImage.
  cbn [flags world]. now rewrite H.
Qed.

(** C4.  In short mode every test of the suite skips at once: beyond
    the optional [t.Parallel] its only call is the skip, so no
    environment is created or started, no manager is started, no step is
    run and no resource is submitted. *)
Theorem short_mode_skips_whole_test (G : e2e.Globals) (rt : Runtime) :
  flag.deref "test.short" (flags rt) = true ->
  Forall (fun test =>
    calls (e2e.run rt test)
    = (if e2e.parallel G then [Parallel] else [])
      ++ [Skip "skipping test in short mode."]
    /\ verdict (e2e.run rt test) = SKIP
    /\ existsb does_work (calls (e2e.run rt test)) = false)
    (e2e.suite G).
Proof.
  intros H. each_test; unfold course; rewrite H;
    destruct (e2e.parallel G); cbn; auto.
Qed.

(** C5.  In every test, once the environment has started, [Stop] is
    called when the test ends, whatever the sandbox, the manager or the
    step's assertions did: it is the last call of the test and it is made
    exactly once. *)
Theorem stop_runs_on_every_exit (G : e2e.Globals) (rt : Runtime) :
  flag.deref "test.short" (flags rt) = false ->
  world rt (Start the_env) = true ->
  Forall (fun test =>
    In (Start the_env) (calls (e2e.run rt test))
    /\ last (calls (e2e.run rt test)) = Some (Stop the_env)
    /\ length (List.filter is_Stop (calls (e2e.run rt test))) = 1)
    (e2e.suite G).
Proof.
  intros Hs Hstart. destruct rt as [fs w]. cbn [flags world] in *.
  each_test; unfold course; cbn [flags world]; rewrite Hs, Hstart;
    destruct (e2e.parallel G); cases_of w; auto 10.
Qed.

End Suite.

Section Scenarios.

Import testing.

Ltac cases_of w :=
  cbn;
  repeat match goal with
         | |- context [w ?c] => destruct (w c) eqn:?; cbn
         end.

(** C2.  The insecure-cluster test builds the specification named
    [crdb] with 3 nodes, no TLS, image [cockroachdb/cockroach:v21.1.6]
    and a 1Gi data store of class [standard], submits it to the sandbox,
    then asserts readiness within 500 seconds and, after it, that the
    database functions over an insecure connection; each of these is
    reached only when the one before succeeded, and the deferred [Stop]
    closes the test. *)
Theorem insecure_cluster_scenario (G : e2e.Globals) (rt : Runtime) :
  let name := "TestCreateInsecureCluster" in
  let sb := the_sandbox name in
  let cr := {| cr_name := "crdb"; cr_nodes := 3; cr_tls := false;
               cr_image := "cockroachdb/cockroach:v21.1.6";
               cr_storage := Some ("1Gi", "standard") |} in
  let ready :=
    RequireClusterToBeReadyEventuallyTimeout sb {| cluster := cr |}
      (500 * time.Second)%Z in
  let probe := RequireDatabaseToFunctionInsecure sb {| cluster := cr |} in
  let w := world rt in
  flag.deref "test.short" (flags rt) = false ->
  w (Start the_env) = true ->
  w (NewDiffingSandbox (sb_env sb)) = true ->
  w (StartManager sb (the_reconciler name)) = true ->
  calls (e2e.run rt (name, e2e.TestCreateInsecureCluster G))
  = (if e2e.parallel G then [Parallel] else [])
    ++ [CreateActiveEnvForTest the_env; Start the_env;
        NewDiffingSandbox (sb_env sb);
        StartManager sb (the_reconciler name);
        Run "creates 3-node insecure cluster"; Create sb cr]
    ++ (if w (Create sb cr) then
          ready :: (if w ready then
                      probe :: (if w probe then
                                  [Log "Done with basic cluster"]
                                else [])
                    else [])
        else [])
    ++ [Stop the_env]
  /\ (verdict (e2e.run rt (name, e2e.TestCreateInsecureCluster G)) = PASS
      <-> w (Create sb cr) = true /\ w ready = true /\ w probe = true).
Proof.
  intros name sb cr ready probe w Hs H1 H2 H3.
  rewrite course_TestCreateInsecureCluster.
  subst name sb cr ready probe w.
  destruct rt as [fs w]. cbn [flags world] in *.
  unfold course. rewrite Hs, H1, H2, H3. cbn [negb].
  unfold insecure_cluster, secure_cluster. cbn [cluster].
  destruct (e2e.parallel G).
  all: cases_of w; (split; [reflexivity | split; intros; intuition congruence]).
Qed.

(** C3.  In the invalid-image-tag test the specification carries the
    image [cockroachdb/cockroach:v20.2.555]; once it is submitted, the
    image-pull-backoff assertion comes first and the failed-state
    assertion, on the same sandbox, is made right after it exactly when
    backoff was detected; the test passes only if both hold. *)
Theorem invalid_version_scenario (G : e2e.Globals) (rt : Runtime) :
  let name := "TestCreateSecureClusterWithInvalidVersion" in
  let sb := the_sandbox name in
  let cr := {| cr_name := "crdb"; cr_nodes := 3; cr_tls := true;
               cr_image := "cockroachdb/cockroach:v20.2.555";
               cr_storage := Some ("1Gi", "standard") |} in
  let backoff := RequireClusterInImagePullBackoff sb {| cluster := cr |} in
  let failed := RequireClusterInFailedState sb {| cluster := cr |} in
  let w := world rt in
  flag.deref "test.short" (flags rt) = false ->
  w (Start the_env) = true ->
  w (NewDiffingSandbox (sb_env sb)) = true ->
  w (StartManager sb (the_reconciler name)) = true ->
  calls (e2e.run rt (name, e2e.TestCreateSecureClusterWithInvalidVersion G))
  = (if e2e.parallel G then [Parallel] else [])
    ++ [CreateActiveEnvForTest the_env; Start the_env;
        NewDiffingSandbox (sb_env sb);
        StartManager sb (the_reconciler name);
        Run "creates 3-node secure cluster with invalid image";
        Create sb cr]
    ++ (if w (Create sb cr) then
          backoff :: (if w backoff then
                        failed :: (if w failed then
                                     [Log "Done with basic invalid cluster"]
                                   else [])
                      else [])
        else [])
    ++ [Stop the_env]
  /\ (verdict
        (e2e.run rt (name, e2e.TestCreateSecureClusterWithInvalidVersion G))
      = PASS
      <-> w (Create sb cr) = true /\ w backoff = true /\ w failed = true).
Proof.
  intros name sb cr backoff failed w Hs H1 H2 H3.
  rewrite course_TestCreateSecureClusterWithInvalidVersion.
  subst name sb cr backoff failed w.
  destruct rt as [fs w]. cbn [flags world] in *.
  unfold course. rewrite Hs, H1, H2, H3. cbn [negb].
  unfold insecure_cluster, secure_cluster. cbn [cluster].
  destruct (e2e.parallel G).
  all: cases_of w; (split; [reflexivity | split; intros; intuition congruence]).
Qed.

End Scenarios.

Section Flags.

Import testing.

Ltac cases_of w :=
  cbn;
  repeat match goal with
         | |- context [w ?c] => destruct (w c) eqn:?; cbn
         end.

Lemma package_init_parallel fs :
  e2e.parallel (fst (e2e.package_init fs)) = false.
Proof.
  unfold e2e.package_init, flag.Bool, flag.deref. cbn.
  now rewrite lookup_insert_eq.
Qed.

Lemma start_registered args :
  e2e.start args
  = match flag.Parse args registered_flags with
    | Some fs => Some (initial_globals, fs)
    | None => None
    end.
Proof. reflexivity. Qed.

(** The value of [parallel] is fixed before the command line is read. *)
Lemma start_parallel args g fs :
  e2e.start args = Some (g, fs) -> e2e.parallel g = false.
Proof.
  rewrite start_registered.
  destruct (flag.Parse args registered_flags); [|discriminate].
  intros [= <- _]. apply package_init_parallel.
Qed.

(** C1, as the code has it.  With [-parallel=true] on the command line
    the flag's cell does hold [true] after parsing, but the package
    variable [parallel] was read through the pointer when the package
    was initialised: it is [false], and no test of the suite calls
    [t.Parallel]. *)
Theorem parallel_flag_read_before_parse (w : call -> bool) :
  exists g fs,
    e2e.start [("parallel", true)] = Some (g, fs)
    /\ flag.deref "parallel" fs = true
    /\ e2e.parallel g = false
    /\ Forall (fun test =>
         existsb is_Parallel
           (calls (e2e.run {| flags := fs; world := w |} test)) = false)
         (e2e.suite g).
Proof.
  exists initial_globals, (<["parallel" := true]> registered_flags).
  split; [reflexivity |]. split; [reflexivity |].
  split; [apply package_init_parallel |].
  unfold e2e.suite. repeat apply List.Forall_cons; try apply List.Forall_nil;
    [ rewrite course_TestCreateInsecureCluster
    | rewrite course_TestCreatesSecureCluster
    | rewrite course_TestCreateSecureClusterWithInvalidVersion
    | rewrite course_TestCreateSecureClusterWithNonCRDBImage ];
    change (e2e.parallel initial_globals) with false;
    unfold course; cbn [flags world];
    change (flag.deref "test.short"
              (<["parallel" := true]> registered_flags)) with false;
    cases_of w; reflexivity.
Qed.

Lemma Parse_same_but_pvc args :
  forall fs fs',
    same_but_pvc fs fs' ->
    match flag.Parse args fs, flag.Parse args fs' with
    | Some a, Some b => same_but_pvc a b
    | None, None => True
    | _, _ => False
    end.
Proof.
  induction args as [|[n v] args IH]; intros fs fs' [Hd He]; simpl.
  - split; assumption.
  - pose proof (Hd n) as Hn.
    destruct (fs !! n) as [x|] eqn:E1, (fs' !! n) as [y|] eqn:E2;
      try exact I.
    + apply IH. split; intros m.
      * destruct (decide (n = m)) as [-> |].
        -- rewrite !lookup_insert_eq. split; eauto.
        -- rewrite !lookup_insert_ne by assumption. apply Hd.
      * intros Hm. destruct (decide (n = m)) as [-> |].
        -- now rewrite !lookup_insert_eq.
        -- rewrite !lookup_insert_ne by assumption. now apply He.
    + destruct Hn as [Hn _]. destruct Hn; [eauto | discriminate].
    + destruct Hn as [_ Hn]. destruct Hn; [eauto | discriminate].
Qed.

Lemma go_test_pvc (args : list (string * bool)) (b : bool) (w : call -> bool) :
  e2e.go_test (("pvc", b) :: args) w = e2e.go_test args w.
Proof.
  unfold e2e.go_test. rewrite !start_registered.
  change (flag.Parse (("pvc", b) :: args) registered_flags)
    with (flag.Parse args (<["pvc" := b]> registered_flags)).
  assert (S : same_but_pvc (<["pvc" := b]> registered_flags)
                registered_flags).
  { split; intros n.
    - destruct (decide ("pvc" = n)) as [<- |].
      + rewrite lookup_insert_eq. split; [|eauto].
        intros _. now exists false.
      + now rewrite lookup_insert_ne.
    - intros Hn. now rewrite lookup_insert_ne. }
  pose proof (Parse_same_but_pvc args _ _ S) as P.
  destruct (flag.Parse args (<["pvc" := b]> registered_flags)) as [fs|],
    (flag.Parse args registered_flags) as [fs'|];
    try contradiction; [|reflexivity].
  f_equal. apply suite_reports_short.
  unfold flag.deref. destruct P as [_ P]. now rewrite P.
Qed.

(** C8, as the code has it.  [-pvc] is a registered flag with default
    [false] whose cell follows the command line, but no test reads it:
    whatever value it is given, the suite makes the same calls and
    reports the same verdicts. *)
Theorem pvc_flag_changes_nothing
  (args : list (string * bool)) (b : bool) (w : call -> bool) :
  flag.deref (e2e.pvc initial_globals) registered_flags = false
  /\ option_map (flag.deref (e2e.pvc initial_globals))
       (flag.Parse [("pvc", b)] registered_flags) = Some b
  /\ e2e.go_test (("pvc", b) :: args) w = e2e.go_test args w.
Proof.
  split; [reflexivity |]. split.
  - change (flag.Parse [("pvc", b)] registered_flags)
      with (Some (<["pvc" := b]> registered_flags)).
    change (e2e.pvc initial_globals) with "pvc".
    cbn [option_map]. unfold flag.deref. now rewrite lookup_insert_eq.
  - apply go_test_pvc.
Qed.

(** C8 as stated does not hold: with [-pvc=true] the suite makes no call
    that it does not make without the flag. *)
Lemma pvc_enables_no_variant : ~ pvc_enables_variants all_good.
Proof.
  intros (c & Hin & Hout). apply Hout.
  now rewrite <- (go_test_pvc [] true all_good).
Qed.

End Flags.

(** ** The scenarios on concrete runs *)

Lemma insecure_cluster_scenario_witness :
  let name := "TestCreateInsecureCluster" in
  let sb := the_sandbox name in
  let b := insecure_cluster in
  (flag.deref "test.short" (testing.flags quiet_run) = false
   /\ all_good (Start the_env) = true
   /\ all_good (NewDiffingSandbox (sb_env sb)) = true
   /\ all_good (StartManager sb (the_reconciler name)) = true)
  /\ testing.calls
       (e2e.run quiet_run (name, e2e.TestCreateInsecureCluster initial_globals))
     = [CreateActiveEnvForTest the_env; Start the_env;
        NewDiffingSandbox (sb_env sb); StartManager sb (the_reconciler name);
        Run "creates 3-node insecure cluster"; Create sb (cluster b);
        RequireClusterToBeReadyEventuallyTimeout sb b 500000000000%Z;
        RequireDatabaseToFunctionInsecure sb b;
        Log "Done with basic cluster"; Stop the_env]
  /\ testing.verdict
       (e2e.run quiet_run (name, e2e.TestCreateInsecureCluster initial_globals))
     = testing.PASS.
Proof.
  intros name sb b.
  split; [repeat split |].
  destruct (insecure_cluster_scenario initial_globals quiet_run
              eq_refl eq_refl eq_refl eq_refl) as [Hc Hv].
  split; [exact Hc | apply Hv; repeat split].
Defined.

Lemma invalid_version_scenario_witness :
  let name := "TestCreateSecureClusterWithInvalidVersion" in
  let sb := the_sandbox name in
  let b := secure_cluster "cockroachdb/cockroach:v20.2.555" in
  (flag.deref "test.short" (testing.flags stuck_run) = false
   /\ stuck_world (Start the_env) = true
   /\ stuck_world (NewDiffingSandbox (sb_env sb)) = true
   /\ stuck_world (StartManager sb (the_reconciler name)) = true)
  /\ testing.calls
       (e2e.run stuck_run
          (name, e2e.TestCreateSecureClusterWithInvalidVersion initial_globals))
     = [CreateActiveEnvForTest the_env; Start the_env;
        NewDiffingSandbox (sb_env sb); StartManager sb (the_reconciler name);
        Run "creates 3-node secure cluster with invalid image";
        Create sb (cluster b);
        RequireClusterInImagePullBackoff sb b;
        RequireClusterInFailedState sb b; Stop the_env]
  /\ testing.verdict
       (e2e.run stuck_run
          (name, e2e.TestCreateSecureClusterWithInvalidVersion initial_globals))
     <> testing.PASS.
Proof.
  intros name sb b.
  split; [repeat split |].
  destruct (invalid_version_scenario initial_globals stuck_run
              eq_refl eq_refl eq_refl eq_refl) as [Hc Hv].
  split; [exact Hc |].
  intros Hp. apply Hv in Hp as (_ & _ & Hf). discriminate Hf.
Defined.

Lemma short_mode_skips_whole_test_witness :
  flag.deref "test.short" (testing.flags short_run) = true
  /\ Forall (fun test =>
       testing.calls (e2e.run short_run test)
       = [Skip "skipping test in short mode."]
       /\ testing.verdict (e2e.run short_run test) = testing.SKIP
       /\ existsb does_work (testing.calls (e2e.run short_run test)) = false)
       (e2e.suite initial_globals).
Proof.
  split; [reflexivity |].
  exact (short_mode_skips_whole_test initial_globals short_run eq_refl).
Defined.

Lemma stop_runs_on_every_exit_witness :
  (flag.deref "test.short" (testing.flags stuck_run) = false
   /\ testing.world stuck_run (Start the_env) = true)
  /\ Forall (fun test =>
       In (Start the_env) (testing.calls (e2e.run stuck_run test))
       /\ last (testing.calls (e2e.run stuck_run test)) = Some (Stop the_env)
       /\ length (List.filter is_Stop (testing.calls (e2e.run stuck_run test)))
          = 1)
       (e2e.suite initial_globals).
Proof.
  split; [split; reflexivity |].
  exact (stop_runs_on_every_exit initial_globals stuck_run eq_refl eq_refl).
Defined.

Example stuck_suite_verdicts :
  option_map (map testing.verdict) (e2e.go_test [] stuck_world)
  = Some [testing.FAIL; testing.FAIL; testing.FAIL; testing.FAIL].
Proof. vm_compute. reflexivity. Qed.

(** ** More on the script *)

Lemma getVersions_filter (data : crdbVersionsResponse) :
  getVersions data = List.filter isValid (tag_names data).
Proof. unfold getVersions, tag_names. now rewrite (data_loop isValid). Qed.

Lemma filter_idem {A : Type} (f : A -> bool) (l : list A) :
  List.filter f (List.filter f l) = List.filter f l.
Proof.
  induction l as [|x l IH]; simpl; [reflexivity |].
  destruct (f x) eqn:E; simpl; rewrite ?E, IH; reflexivity.
Qed.

(** X1.  Filtering distributes over the catalog: the versions of a
    response whose data is the concatenation of two lists are the versions
    of the first followed by the versions of the second. *)
Theorem getVersions_app (d1 d2 : list datum) :
  getVersions {| Data := d1 ++ d2 |}
  = getVersions {| Data := d1 |} ++ getVersions {| Data := d2 |}.
Proof.
  rewrite !getVersions_filter. unfold tag_names. cbn [Data].
  now rewrite flat_map_app, List.filter_app.
Qed.

(** X2.  Filtering is idempotent: every returned tag passes [isValid],
    and a response made of the returned tags is returned whole. *)
Theorem getVersions_idempotent (data : crdbVersionsResponse) :
  Forall (fun v => isValid v = true) (getVersions data)
  /\ getVersions (response_of (getVersions data)) = getVersions data.
Proof.
  rewrite !getVersions_filter. split.
  - apply Forall_forall. intros v Hv. apply list_elem_of_In in Hv.
    now apply List.filter_In in Hv.
  - unfold response_of, tag_names. cbn [Data flat_map Repositories Tags].
    rewrite !app_nil_r, map_map. cbn [Name]. rewrite map_id.
    apply filter_idem.
Qed.

Lemma rune_width_before_ascii (a c : ascii) (s : list ascii) :
  byte_val c < 128 -> length s <= 2 -> utf8.rune_width (a :: c :: s) = 1.
Proof.
  intros Hc Hs. unfold utf8.rune_width.
  destruct (utf8.first a) as [[n [lo hi]]|] eqn:E; [|reflexivity].
  apply first_spec in E as [Hn Hlo].
  assert (B : utf8.between lo hi c = false).
  { unfold utf8.between. apply andb_false_iff. left.
    apply Nat.leb_gt. lia. }
  destruct Hn as [-> | [-> | ->]].
  - now rewrite B.
  - destruct s as [|b2 s]; [reflexivity |]. now rewrite B.
  - destruct s as [|b2 [|b3 s]]; try reflexivity. now rewrite B.
Qed.

(** X3.  The dots of [^v21.1.8$] are wildcards: every tag made of [v21],
    one byte, [1], one byte, [8] is rejected, whatever the two bytes are,
    newlines apart. *)
Theorem isValid_v21_wildcards (a b : ascii) :
  a <> "010"%char -> b <> "010"%char -> isValid (v21_with a b) = false.
Proof.
  intros Ha Hb. rewrite isValid_excluded. apply negb_false_iff.
  unfold excluded. apply orb_true_iff. left. apply orb_true_iff. left.
  apply orb_true_iff. right.
  assert (E : bytes (v21_with a b)
              = ["v"; "2"; "1"; a; "1"; b; "8"]%char) by reflexivity.
  unfold anchored_v21_1_8. rewrite E.
  change (strip_prefix ["v"; "2"; "1"; a; "1"; b; "8"]%char (bytes "v21"))
    with (Some [a; "1"; b; "8"]%char).
  apply Ascii.eqb_neq in Ha, Hb.
  unfold strip_rune. rewrite Ha.
  rewrite rune_width_before_ascii by (vm_compute; lia).
  cbn [drop].
  change (strip_prefix ["1"; b; "8"]%char (bytes "1"))
    with (Some [b; "8"]%char).
  cbv beta iota. rewrite Hb.
  assert (W : utf8.rune_width [b; "8"%char] = 1)
    by (apply rune_width_before_ascii; vm_compute; lia).
  rewrite W. reflexivity.
Qed.

Lemma isValid_v21_wildcards_witness :
  ("x"%char <> "010"%char /\ "y"%char <> "010"%char)
  /\ isValid "v21x1y8" = false.
Proof.
  assert (Ha : "x"%char <> "010"%char) by discriminate.
  assert (Hb : "y"%char <> "010"%char) by discriminate.
  split; [split; assumption |].
  exact (isValid_v21_wildcards "x" "y" Ha Hb).
Defined.

Lemma exists_tail_head_absent (c : ascii) (P : list ascii -> bool) s :
  (forall t, P t = true -> exists t', t = c :: t') ->
  ~ In c s -> exists_tail P s = false.
Proof.
  intros HP Hc. induction s as [|x s IH]; simpl.
  - destruct (P []) eqn:E; [|reflexivity].
    apply HP in E as [t' E]. discriminate.
  - rewrite IH by (intros H; apply Hc; now right).
    destruct (P (x :: s)) eqn:E; [|reflexivity].
    apply HP in E as [t' E]. injection E as -> _.
    exfalso. apply Hc. now left.
Qed.

(** X4.  A tag with no byte [l] and no byte [u] can only be rejected by
    the two anchored alternatives: it is kept unless it starts with [v19]
    or matches the [v21.1.8] alternative. *)
Theorem isValid_plain_tag (v : string) :
  ~ In "l"%char (bytes v) -> ~ In "u"%char (bytes v) ->
  isValid v = negb (HasPrefix v "v19" || anchored_v21_1_8 v).
Proof.
  intros Hl Hu. rewrite isValid_excluded. unfold excluded. f_equal.
  assert (C : Contains v "latest" = false).
  { unfold Contains. apply (exists_tail_head_absent "l"); [|exact Hl].
    intros t Ht. destruct t as [|x t]; [discriminate |].
    cbn in Ht. apply andb_true_iff in Ht as [Ht _].
    apply Ascii.eqb_eq in Ht as ->. eauto. }
  assert (S : HasSuffix v "ubi" = false).
  { unfold HasSuffix. apply (exists_tail_head_absent "u"); [|exact Hu].
    intros t Ht. destruct t as [|x t]; [discriminate |].
    cbn in Ht. apply andb_true_iff in Ht as [Ht _].
    apply Ascii.eqb_eq in Ht as ->. eauto. }
  now rewrite C, S, !orb_false_r.
Qed.

Lemma isValid_plain_tag_witness :
  (~ In "l"%char (bytes "v21.1.80") /\ ~ In "u"%char (bytes "v21.1.80"))
  /\ isValid "v21.1.80"
     = negb (HasPrefix "v21.1.80" "v19" || anchored_v21_1_8 "v21.1.80").
Proof.
  assert (Hl : ~ In "l"%char (bytes "v21.1.80"))
    by (cbn; intuition discriminate).
  assert (Hu : ~ In "u"%char (bytes "v21.1.80"))
    by (cbn; intuition discriminate).
  split; [split; assumption |].
  exact (isValid_plain_tag "v21.1.80" Hl Hu).
Defined.

(** ** More on sorting and on [main] *)
Section ScriptRuns.

Context {SV : semver.Library} {SO : sort.Package} {YA : yaml.Encoder}.

Lemma parse_versions_inv versions vs :
  parse_versions versions = Ok vs ->
  Forall2 (fun s v => semver.NewVersion s = inl v) versions vs.
Proof.
  revert vs. induction versions as [|r rest IH]; intros vs H; simpl in H.
  - injection H as <-. constructor.
  - destruct (semver.NewVersion r) as [v|] eqn:E; [|discriminate].
    destruct (parse_versions rest) as [vs'|]; [|discriminate].
    injection H as <-. constructor; auto.
Qed.

Lemma sortVersions_inv versions out :
  sortVersions versions = Ok out ->
  exists vs,
    Forall2 (fun s v => semver.NewVersion s = inl v) versions vs
    /\ out = map semver.Original (sort.Sort semver.Collection_Less vs).
Proof.
  intros H. unfold sortVersions in H.
  destruct (parse_versions versions) as [vs|] eqn:E; [|discriminate].
  injection H as <-. exists vs. split; [now apply parse_versions_inv |].
  now rewrite originals_loop.
Qed.

Lemma parsed_parses versions vs :
  Forall2 (fun s v => semver.NewVersion s = inl v) versions vs ->
  Forall (fun r => parses r = true) versions.
Proof.
  induction 1 as [|s v versions vs Hv _ IH]; constructor; [|exact IH].
  unfold parses. now rewrite Hv.
Qed.

Lemma all_parse_dec versions :
  Forall (fun r => parses r = true) versions
  \/ exists r, In r versions /\ parses r = false.
Proof.
  induction versions as [|x versions [IH | (r & Hin & Hr)]].
  - left. constructor.
  - destruct (parses x) eqn:E.
    + left. now constructor.
    + right. exists x. split; [now left | exact E].
  - right. exists r. split; [now right | exact Hr].
Qed.

(** What the sorted output of parsed versions satisfies. *)
Lemma sorted_originals versions vs :
  Forall2 (fun s v => semver.NewVersion s = inl v) versions vs ->
  let out := map semver.Original (sort.Sort semver.Collection_Less vs) in
  Permutation versions out
  /\ Forall2 (fun s v => semver.NewVersion s = inl v) out
       (sort.Sort semver.Collection_Less vs)
  /\ ascending_versions out.
Proof.
  intros F out.
  assert (R : Forall2 (fun s v => semver.NewVersion s = inl v) out
                (sort.Sort semver.Collection_Less vs)).
  { apply Forall2_fmap_l, Forall_Forall2_diag, Forall_forall.
    intros v Hv. apply (parsed_reparse _ _ _ F).
    apply list_elem_of_In in Hv.
    eapply Permutation_in; [|exact Hv].
    symmetry. apply sort.Sort_Permutation. }
  split; [|split; [exact R |]].
  - rewrite <- (parsed_originals _ _ F) at 1.
    apply Permutation_map, sort.Sort_Permutation.
  - exists (sort.Sort semver.Collection_Less vs). split; [exact R |].
    apply (sort.Sort_ascending _ _ _ Collection_Less_strict_weak).
Qed.

Lemma parses_Permutation l l' :
  Permutation l l' ->
  Forall (fun r => parses r = true) l -> Forall (fun r => parses r = true) l'.
Proof.
  intros P H. apply Forall_forall. intros r Hr.
  rewrite Forall_forall in H. apply H.
  apply list_elem_of_In. apply list_elem_of_In in Hr.
  eapply Permutation_in; [symmetry; exact P | exact Hr].
Qed.

(** X5.  [sortVersions] returns a list exactly when every input string
    parses; otherwise it ends in [log.Fatalf]. *)
Theorem sortVersions_ok_iff (versions : list string) :
  (exists out, sortVersions versions = Ok out)
  <-> Forall (fun r => parses r = true) versions.
Proof.
  split.
  - intros [out H]. apply sortVersions_inv in H as (vs & F & _).
    now apply parsed_parses in F.
  - intros H. destruct (parse_versions_ok _ H) as (vs & E & _).
    eexists. exact (sortVersions_ok _ _ E).
Qed.

(** X6.  The output has as many entries as the input: nothing is dropped
    or duplicated, and the output is empty exactly when the input is. *)
Theorem sortVersions_length (versions out : list string) :
  sortVersions versions = Ok out ->
  length out = length versions /\ (out = [] <-> versions = []).
Proof.
  intros H. apply sortVersions_inv in H as (vs & F & ->).
  assert (L : length (map semver.Original
                        (sort.Sort semver.Collection_Less vs))
              = length versions).
  { rewrite length_map, <- (Permutation_length (sort.Sort_Permutation _ _ vs)).
    symmetry. exact (Forall2_length _ _ _ F). }
  split; [exact L |].
  destruct (map semver.Original (sort.Sort semver.Collection_Less vs)),
    versions; simpl in L; split; intros; congruence.
Qed.

(** X7.  The output of [sortVersions] is a valid input: sorting it again
    cannot end in [log.Fatalf], and gives the same strings, again in
    ascending order. *)
Theorem sortVersions_again (versions out : list string) :
  sortVersions versions = Ok out ->
  exists out',
    sortVersions out = Ok out'
    /\ Permutation out out'
    /\ ascending_versions out'.
Proof.
  intros H. apply sortVersions_inv in H as (vs & F & ->).
  destruct (sorted_originals _ _ F) as (_ & R & _).
  pose proof (parsed_parses _ _ R) as P.
  destruct (parse_versions_ok _ P) as (vs' & E & F').
  exists (map semver.Original (sort.Sort semver.Collection_Less vs')).
  split; [now apply sortVersions_ok |].
  destruct (sorted_originals _ _ F') as (Hp & _ & Ha). now split.
Qed.

(** X8.  The order of the catalog does not matter: two inputs with the
    same strings both sort or both end in [log.Fatalf], and when they sort
    their outputs hold the same strings. *)
Theorem sortVersions_input_order (versions versions' out : list string) :
  Permutation versions versions' ->
  sortVersions versions = Ok out ->
  exists out',
    sortVersions versions' = Ok out'
    /\ Permutation out out'
    /\ ascending_versions out'.
Proof.
  intros P H. apply sortVersions_inv in H as (vs & F & ->).
  pose proof (parses_Permutation _ _ P (parsed_parses _ _ F)) as P'.
  destruct (parse_versions_ok _ P') as (vs' & E & F').
  exists (map semver.Original (sort.Sort semver.Collection_Less vs')).
  split; [now apply sortVersions_ok |].
  destruct (sorted_originals _ _ F) as (Hp & _ & _).
  destruct (sorted_originals _ _ F') as (Hp' & _ & Ha).
  split; [|exact Ha].
  rewrite <- Hp, <- Hp'. exact P.
Qed.

(** X9.  When the file can be created, the catalog is fetched and
    decoded, every kept tag parses, the boilerplate is readable and the
    write succeeds, [main] fetches once, writes once and closes the file:
    the manifest is the boilerplate, the file description and the YAML
    document of the kept tags in ascending order, written with permission
    0. *)
Theorem main_writes_sorted_manifest
  (w : World) (body boilerplate : string) (data : crdbVersionsResponse) :
  os_Create w crdbVersionsFileName = None ->
  http_Get w crdbVersionsUrl = inl body ->
  json_Decode w body = inl data ->
  Forall (fun r => parses r = true) (getVersions data) ->
  ioutil_ReadFile w boilerplate_path = inl boilerplate ->
  (forall content, ioutil_WriteFile w crdbVersionsFileName content = None) ->
  exists out,
    Permutation
      (List.filter (fun name => negb (excluded name)) (tag_names data)) out
    /\ ascending_versions out
    /\ main w
       = [OsCreate crdbVersionsFileName; HttpGet crdbVersionsUrl;
          ReadFile boilerplate_path;
          WriteFile crdbVersionsFileName
            ((boilerplate +:+ crdbVersionsFileDescription)
             +:+ yaml.Encode 2 "CrdbVersions" out) 0;
          Close crdbVersionsFileName].
Proof.
  intros Hc Hg Hd Hp Hr Hw.
  destruct (parse_versions_ok _ Hp) as (vs & E & F).
  exists (map semver.Original (sort.Sort semver.Collection_Less vs)).
  destruct (sorted_originals _ _ F) as (P & _ & A).
  split; [|split; [exact A |]].
  - rewrite <- P, getVersions_filter.
    erewrite List.filter_ext; [reflexivity |].
    intros v. symmetry. apply isValid_excluded.
  - unfold main, getData, annotation. fold boilerplate_path.
    rewrite Hc, Hg, Hd, (sortVersions_ok _ _ E), Hr, Hw. reflexivity.
Qed.

(** X10.  [main] writes the manifest exactly when the file was created,
    the catalog was fetched and decoded, every kept tag parses and the
    boilerplate was read; it never writes twice. *)
Theorem main_writes_iff (w : World) :
  (existsb is_WriteFile (main w) = true
   <-> os_Create w crdbVersionsFileName = None
       /\ (exists body data,
             http_Get w crdbVersionsUrl = inl body
             /\ json_Decode w body = inl data
             /\ Forall (fun r => parses r = true) (getVersions data))
       /\ (exists boilerplate,
             ioutil_ReadFile w boilerplate_path = inl boilerplate))
  /\ length (List.filter is_WriteFile (main w)) <= 1.
Proof.
  unfold main, getData, annotation. fold boilerplate_path.
  destruct (os_Create w crdbVersionsFileName) as [e|].
  { split; [|cbn; lia]. split; [discriminate |]. intros [H _]. discriminate. }
  destruct (http_Get w crdbVersionsUrl) as [body|e].
  2:{ split; [|cbn; lia]. split; [discriminate |].
      intros (_ & (b & d & H & _) & _). discriminate. }
  destruct (json_Decode w body) as [data|e] eqn:D.
  2:{ split; [|cbn; lia]. split; [discriminate |].
      intros (_ & (b & d & H & H' & _) & _).
      injection H as <-. rewrite D in H'. discriminate. }
  destruct (sortVersions (getVersions data)) as [out|msg] eqn:S.
  2:{ split; [|cbn; lia]. split; [discriminate |].
      intros (_ & (b & d & H & H' & P) & _).
      injection H as <-. rewrite D in H'. injection H' as <-.
      destruct (parse_versions_ok _ P) as (vs & E & _).
      rewrite (sortVersions_ok _ _ E) in S. discriminate. }
  destruct (ioutil_ReadFile w boilerplate_path) as [bp|e].
  2:{ split; [|cbn; lia]. split; [discriminate |].
      intros (_ & _ & (b & H)). discriminate. }
  assert (P : Forall (fun r => parses r = true) (getVersions data)).
  { apply sortVersions_inv in S as (vs & F & _).
    now apply parsed_parses in F. }
  destruct (ioutil_WriteFile w crdbVersionsFileName _);
    (split; [|cbn; lia]); (split; [intros _ | reflexivity]);
    (split; [reflexivity | split; eauto 6]).
Qed.

(** X11.  Every run of [main] starts by creating the file and ends in
    one of two ways: with the file closed after the write, no fatal line
    having been logged, or on a fatal log line, in which case the deferred
    close never happens. *)
Theorem main_closes_or_dies (w : World) :
  hd_error (main w) = Some (OsCreate crdbVersionsFileName)
  /\ ((last (main w) = Some (Close crdbVersionsFileName)
       /\ existsb is_LogFatal (main w) = false
       /\ existsb is_WriteFile (main w) = true)
      \/ (exists msg, last (main w) = Some (LogFatal msg))
         /\ existsb is_Close (main w) = false).
Proof.
  unfold main, getData, annotation.
  destruct (os_Create w crdbVersionsFileName);
    [split; [reflexivity | right; split; [eexists |]; reflexivity] |].
  destruct (http_Get w crdbVersionsUrl) as [body|];
    [|split; [reflexivity | right; split; [eexists |]; reflexivity]].
  destruct (json_Decode w body) as [data|];
    [|split; [reflexivity | right; split; [eexists |]; reflexivity]].
  destruct (sortVersions (getVersions data));
    [|split; [reflexivity | right; split; [eexists |]; reflexivity]].
  destruct (ioutil_ReadFile w _);
    [|split; [reflexivity | right; split; [eexists |]; reflexivity]].
  destruct (ioutil_WriteFile w crdbVersionsFileName _);
    [split; [reflexivity | right; split; [eexists |]; reflexivity] |].
  split; [reflexivity | left; repeat split].
Qed.

(** X12.  When the catalog cannot be fetched or decoded, [main] stops
    right after the request, on a fatal line that reads [Cannot parse
    response:] followed by the error of [getData]; for a failed request
    that error is itself [Cannot make a get request:] followed by the
    cause.  Neither the boilerplate is read nor the manifest written. *)
Theorem main_getData_error (w : World) (err : string) :
  os_Create w crdbVersionsFileName = None ->
  snd (getData w) = inr err ->
  main w = [OsCreate crdbVersionsFileName; HttpGet crdbVersionsUrl;
            LogFatal ("Cannot parse response: " +:+ err)]
  /\ (forall cause, http_Get w crdbVersionsUrl = inr cause ->
                    err = "Cannot make a get request: " +:+ cause).
Proof.
  intros Hc He. split.
  - unfold main. rewrite Hc. unfold getData in *. cbn [snd] in He.
    now rewrite He.
  - intros cause Hg. unfold getData in He. cbn [snd] in He.
    rewrite Hg in He. now injection He as <-.
Qed.

End ScriptRuns.

Example clean_catalog_main :
  main (quiet_world clean_catalog)
  = [OsCreate crdbVersionsFileName; HttpGet crdbVersionsUrl;
     ReadFile boilerplate_path;
     WriteFile crdbVersionsFileName
       ("# boilerplate" +:+ crdbVersionsFileDescription
        +:+ reference.encode 2 "CrdbVersions" ["v20.2.10"; "v21.1.6"]) 0;
     Close crdbVersionsFileName].
Proof. vm_compute. reflexivity. Qed.

Lemma sortVersions_length_witness :
  sortVersions ["v21.1.6"; "v20.2.10"; "v20.2.5"]
  = Ok ["v20.2.5"; "v20.2.10"; "v21.1.6"]
  /\ length ["v20.2.5"; "v20.2.10"; "v21.1.6"]
     = length ["v21.1.6"; "v20.2.10"; "v20.2.5"]
  /\ (["v20.2.5"; "v20.2.10"; "v21.1.6"] = []
      <-> ["v21.1.6"; "v20.2.10"; "v20.2.5"] = []).
Proof.
  assert (H : sortVersions ["v21.1.6"; "v20.2.10"; "v20.2.5"]
              = Ok ["v20.2.5"; "v20.2.10"; "v21.1.6"]) by reflexivity.
  split; [exact H |].
  exact (sortVersions_length _ _ H).
Defined.

Lemma sortVersions_again_witness :
  sortVersions ["v21.1.6"; "v20.2.10"; "v20.2.5"]
  = Ok ["v20.2.5"; "v20.2.10"; "v21.1.6"]
  /\ exists out',
       sortVersions ["v20.2.5"; "v20.2.10"; "v21.1.6"] = Ok out'
       /\ Permutation ["v20.2.5"; "v20.2.10"; "v21.1.6"] out'
       /\ ascending_versions out'.
Proof.
  assert (H : sortVersions ["v21.1.6"; "v20.2.10"; "v20.2.5"]
              = Ok ["v20.2.5"; "v20.2.10"; "v21.1.6"]) by reflexivity.
  split; [exact H |].
  exact (sortVersions_again _ _ H).
Defined.

Lemma sortVersions_input_order_witness :
  (Permutation ["v21.1.6"; "v20.2.10"] ["v20.2.10"; "v21.1.6"]
   /\ sortVersions ["v21.1.6"; "v20.2.10"] = Ok ["v20.2.10"; "v21.1.6"])
  /\ exists out',
       sortVersions ["v20.2.10"; "v21.1.6"] = Ok out'
       /\ Permutation ["v20.2.10"; "v21.1.6"] out'
       /\ ascending_versions out'.
Proof.
  assert (P : Permutation ["v21.1.6"; "v20.2.10"] ["v20.2.10"; "v21.1.6"])
    by apply perm_swap.
  assert (H : sortVersions ["v21.1.6"; "v20.2.10"]
              = Ok ["v20.2.10"; "v21.1.6"]) by reflexivity.
  split; [split; assumption |].
  exact (sortVersions_input_order _ _ _ P H).
Defined.

Lemma main_writes_sorted_manifest_witness :
  let w := quiet_world clean_catalog in
  (os_Create w crdbVersionsFileName = None
   /\ http_Get w crdbVersionsUrl = inl "{}"
   /\ json_Decode w "{}" = inl clean_catalog
   /\ Forall (fun r => parses r = true) (getVersions clean_catalog)
   /\ ioutil_ReadFile w boilerplate_path = inl "# boilerplate"
   /\ (forall content,
         ioutil_WriteFile w crdbVersionsFileName content = None))
  /\ exists out,
       Permutation
         (List.filter (fun name => negb (excluded name))
            (tag_names clean_catalog)) out
       /\ ascending_versions out
       /\ main w
          = [OsCreate crdbVersionsFileName; HttpGet crdbVersionsUrl;
             ReadFile boilerplate_path;
             WriteFile crdbVersionsFileName
               (("# boilerplate" +:+ crdbVersionsFileDescription)
                +:+ yaml.Encode 2 "CrdbVersions" out) 0;
             Close crdbVersionsFileName].
Proof.
  intros w.
  assert (H1 : os_Create w crdbVersionsFileName = None) by reflexivity.
  assert (H2 : http_Get w crdbVersionsUrl = inl "{}") by reflexivity.
  assert (H3 : json_Decode w "{}" = inl clean_catalog) by reflexivity.
  assert (H4 : Forall (fun r => parses r = true) (getVersions clean_catalog))
    by (repeat constructor).
  assert (H5 : ioutil_ReadFile w boilerplate_path = inl "# boilerplate")
    by reflexivity.
  assert (H6 : forall content,
             ioutil_WriteFile w crdbVersionsFileName content = None)
    by reflexivity.
  split; [repeat split; assumption |].
  exact (main_writes_sorted_manifest w "{}" "# boilerplate" clean_catalog
           H1 H2 H3 H4 H5 H6).
Defined.

Lemma main_getData_error_witness :
  (os_Create offline_world crdbVersionsFileName = None
   /\ snd (getData offline_world)
      = inr "Cannot make a get request: dial tcp: no route to host")
  /\ main offline_world
     = [OsCreate crdbVersionsFileName; HttpGet crdbVersionsUrl;
        LogFatal ("Cannot parse response: "
                  +:+ "Cannot make a get request: dial tcp: no route to host")]
  /\ (forall cause,
        http_Get offline_world crdbVersionsUrl = inr cause ->
        "Cannot make a get request: dial tcp: no route to host"
        = "Cannot make a get request: " +:+ cause).
Proof.
  assert (H1 : os_Create offline_world crdbVersionsFileName = None)
    by reflexivity.
  assert (H2 : snd (getData offline_world)
               = inr "Cannot make a get request: dial tcp: no route to host")
    by reflexivity.
  split; [split; assumption |].
  exact (main_getData_error offline_world _ H1 H2).
Defined.

(** ** More on the e2e tests *)
Section MoreScenarios.

Import testing.

Ltac cases_of w :=
  cbn;
  repeat match goal with
         | |- context [w ?c] => destruct (w c) eqn:?; cbn
         end.

(** X13.  The secure-cluster test submits the specification [crdb] with
    3 nodes, TLS, image [cockroachdb/cockroach:v20.2.10] and a 1Gi data
    store of class [standard], then asserts readiness within 500 seconds
    and, after it, that the database functions over a secure connection;
    each is reached only when the one before succeeded, and the deferred
    [Stop] closes the test. *)
Theorem secure_cluster_scenario (G : e2e.Globals) (rt : Runtime) :
  let name := "TestCreatesSecureCluster" in
  let sb := the_sandbox name in
  let cr := {| cr_name := "crdb"; cr_nodes := 3; cr_tls := true;
               cr_image := "cockroachdb/cockroach:v20.2.10";
               cr_storage := Some ("1Gi", "standard") |} in
  let ready :=
    RequireClusterToBeReadyEventuallyTimeout sb {| cluster := cr |}
      (500 * time.Second)%Z in
  let probe := RequireDatabaseToFunction sb {| cluster := cr |} in
  let w := world rt in
  flag.deref "test.short" (flags rt) = false ->
  w (Start the_env) = true ->
  w (NewDiffingSandbox (sb_env sb)) = true ->
  w (StartManager sb (the_reconciler name)) = true ->
  calls (e2e.run rt (name, e2e.TestCreatesSecureCluster G))
  = (if e2e.parallel G then [Parallel] else [])
    ++ [CreateActiveEnvForTest the_env; Start the_env;
        NewDiffingSandbox (sb_env sb);
        StartManager sb (the_reconciler name);
        Run "creates 3-node secure cluster"; Create sb cr]
    ++ (if w (Create sb cr) then
          ready :: (if w ready then
                      probe :: (if w probe then
                                  [Log "Done with basic cluster"]
                                else [])
                    else [])
        else [])
    ++ [Stop the_env]
  /\ (verdict (e2e.run rt (name, e2e.TestCreatesSecureCluster G)) = PASS
      <-> w (Create sb cr) = true /\ w ready = true /\ w probe = true).
Proof.
  intros name sb cr ready probe w Hs H1 H2 H3.
  rewrite course_TestCreatesSecureCluster.
  subst name sb cr ready probe w.
  destruct rt as [fs w]. cbn [flags world] in *.
  unfold course. rewrite Hs, H1, H2, H3. cbn [negb].
  unfold insecure_cluster, secure_cluster. cbn [cluster].
  destruct (e2e.parallel G).
  all: cases_of w; (split; [reflexivity | split; intros; intuition congruence]).
Qed.

(** X14.  The non-CockroachDB-image test submits the TLS specification
    with image [nginx:latest] and then asserts the failed state directly:
    it makes no other assertion, image-pull backoff included, and passes
    exactly when the submission and that assertion succeed. *)
Theorem non_crdb_image_scenario (G : e2e.Globals) (rt : Runtime) :
  let name := "TestCreateSecureClusterWithNonCRDBImage" in
  let sb := the_sandbox name in
  let cr := {| cr_name := "crdb"; cr_nodes := 3; cr_tls := true;
               cr_image := "nginx:latest";
               cr_storage := Some ("1Gi", "standard") |} in
  let failed := RequireClusterInFailedState sb {| cluster := cr |} in
  let w := world rt in
  flag.deref "test.short" (flags rt) = false ->
  w (Start the_env) = true ->
  w (NewDiffingSandbox (sb_env sb)) = true ->
  w (StartManager sb (the_reconciler name)) = true ->
  calls (e2e.run rt (name, e2e.TestCreateSecureClusterWithNonCRDBImage G))
  = (if e2e.parallel G then [Parallel] else [])
    ++ [CreateActiveEnvForTest the_env; Start the_env;
        NewDiffingSandbox (sb_env sb);
        StartManager sb (the_reconciler name);
        Run "creates 3-node secure cluster with invalid image";
        Create sb cr]
    ++ (if w (Create sb cr) then
          failed
          :: (if w failed then
                [Log "Done with basic invalid cluster with image other than crdb"]
              else [])
        else [])
    ++ [Stop the_env]
  /\ (verdict
        (e2e.run rt (name, e2e.TestCreateSecureClusterWithNonCRDBImage G))
      = PASS
      <-> w (Create sb cr) = true /\ w failed = true).
Proof.
  intros name sb cr failed w Hs H1 H2 H3.
  rewrite course_TestCreateSecureClusterWithNonCRDBImage.
  subst name sb cr failed w.
  destruct rt as [fs w]. cbn [flags world] in *.
  unfold course. rewrite Hs, H1, H2, H3. cbn [negb].
  unfold insecure_cluster, secure_cluster. cbn [cluster].
  destruct (e2e.parallel G).
  all: cases_of w; (split; [reflexivity | split; intros; intuition congruence]).
Qed.

End MoreScenarios.

Section WholeSuite.

Import testing.

Ltac each_test :=
  unfold e2e.suite;
  repeat apply List.Forall_cons; try apply List.Forall_nil;
  cbn [fst snd];
  [ rewrite ?course_TestCreateInsecureCluster
  | rewrite ?course_TestCreatesSecureCluster
  | rewrite ?course_TestCreateSecureClusterWithInvalidVersion
  | rewrite ?course_TestCreateSecureClusterWithNonCRDBImage ].

Ltac cases_of w :=
  cbn;
  repeat match goal with
         | H : w ?c = _ |- context [w ?c] => rewrite H; cbn
         | |- context [w ?c] => destruct (w c) eqn:?; cbn
         end.

Ltac open_course :=
  unfold course, insecure_cluster, secure_cluster, all_good;
  cbn [flags world cluster].

(** X15.  In every test a resource is submitted exactly when the test is
    not in short mode and the environment, the sandbox and the manager
    all came up: the manager is always started before anything is
    submitted, and nothing is submitted without it. *)
Theorem submit_only_after_manager (G : e2e.Globals) (rt : Runtime) :
  Forall (fun test =>
    existsb is_Create (calls (e2e.run rt test))
    = negb (flag.deref "test.short" (flags rt))
      && world rt (Start the_env)
      && world rt (NewDiffingSandbox (sb_env (the_sandbox (fst test))))
      && world rt (StartManager (the_sandbox (fst test))
                     (the_reconciler (fst test))))
    (e2e.suite G).
Proof.
  destruct rt as [fs w].
  each_test; open_course;
    destruct (flag.deref "test.short" fs), (e2e.parallel G);
    cases_of w; reflexivity.
Qed.

(** X16.  When the environment fails to start, the test panics right
    there: the deferred [Stop] was not yet registered and is never called,
    and no sandbox, manager or step follows. *)
Theorem failed_start_panics (G : e2e.Globals) (rt : Runtime) :
  flag.deref "test.short" (flags rt) = false ->
  world rt (Start the_env) = false ->
  Forall (fun test =>
    calls (e2e.run rt test)
    = (if e2e.parallel G then [Parallel] else [])
      ++ [CreateActiveEnvForTest the_env; Start the_env]
    /\ verdict (e2e.run rt test) = PANIC
    /\ existsb is_Stop (calls (e2e.run rt test)) = false)
    (e2e.suite G).
Proof.
  intros Hs Hstart. destruct rt as [fs w]. cbn [flags world] in *.
  each_test; open_course; rewrite Hs, Hstart;
    destruct (e2e.parallel G); cbn; auto.
Qed.

(** X17.  Every test is fail-fast: in any world its calls are those of
    the fully successful run, cut right after the first decisive call that
    fails; after a failed start nothing follows, after any other failure
    only the deferred [Stop] does. *)
Theorem suite_fail_fast (G : e2e.Globals) (rt : Runtime) :
  Forall (fun test =>
    calls (e2e.run rt test)
    = cut (world rt)
        (calls (e2e.run {| flags := flags rt; world := all_good |} test)))
    (e2e.suite G).
Proof.
  destruct rt as [fs w].
  each_test; open_course;
    destruct (flag.deref "test.short" fs), (e2e.parallel G);
    cases_of w; reflexivity.
Qed.

(** X18.  The verdict of every test: skipped in short mode, a panic when
    the environment does not start, and otherwise passed exactly when
    every decisive call the test made succeeded. *)
Theorem suite_verdicts (G : e2e.Globals) (rt : Runtime) :
  Forall (fun test =>
    verdict (e2e.run rt test)
    = if flag.deref "test.short" (flags rt) then SKIP
      else if negb (world rt (Start the_env)) then PANIC
      else if forallb (world rt)
                (List.filter decisive (calls (e2e.run rt test)))
           then PASS else FAIL)
    (e2e.suite G).
Proof.
  destruct rt as [fs w].
  each_test; open_course;
    destruct (flag.deref "test.short" fs), (e2e.parallel G);
    cases_of w; reflexivity.
Qed.

Lemma assertions_no_Parallel w cs done :
  existsb is_Parallel cs = false ->
  existsb is_Parallel (fst (assertions w cs done)) = false.
Proof.
  induction cs as [|c cs IH]; intros H; [reflexivity |].
  cbn in H. apply orb_false_iff in H as [Hc Hcs]. cbn [assertions].
  destruct (w c); [|cbn; now rewrite Hc].
  specialize (IH Hcs). destruct (assertions w cs done) as [tr ok].
  cbn in *. now rewrite Hc, IH.
Qed.

Lemma course_no_Parallel short w name step cr checks done :
  existsb is_Parallel checks = false ->
  existsb is_Parallel
    (calls (course false short w name step cr checks done)) = false.
Proof.
  intros H. unfold course. destruct short; [reflexivity |].
  destruct (w (Start the_env)); [|reflexivity]. cbn [negb].
  destruct (w (NewDiffingSandbox _)); [|reflexivity]. cbn [negb].
  destruct (w (StartManager _ _)); [|reflexivity]. cbn [negb].
  pose proof (assertions_no_Parallel w (Create (the_sandbox name) cr :: checks)
                done) as A.
  destruct (assertions w _ done) as [tr ok]. cbn in *.
  rewrite existsb_app, A by exact H. reflexivity.
Qed.

(** X19.  Whatever the command line, no test of the suite ever calls
    [t.Parallel]: the package variable [parallel] is [false] in every
    run. *)
Theorem parallel_never_called (args : list (string * bool)) (w : call -> bool) :
  existsb is_Parallel (calls_made (e2e.go_test args w)) = false.
Proof.
  unfold e2e.go_test. rewrite start_registered.
  destruct (flag.Parse args registered_flags) as [fs|]; [|reflexivity].
  unfold calls_made, e2e.suite. cbn [map].
  rewrite course_TestCreateInsecureCluster, course_TestCreatesSecureCluster,
    course_TestCreateSecureClusterWithInvalidVersion,
    course_TestCreateSecureClusterWithNonCRDBImage.
  change (e2e.parallel initial_globals) with false.
  cbn [concat]. rewrite !existsb_app, !course_no_Parallel by reflexivity.
  reflexivity.
Qed.




End WholeSuite.

Lemma secure_cluster_scenario_witness :
  let name := "TestCreatesSecureCluster" in
  let sb := the_sandbox name in
  let b := secure_cluster "cockroachdb/cockroach:v20.2.10" in
  (flag.deref "test.short" (testing.flags quiet_run) = false
   /\ all_good (Start the_env) = true
   /\ all_good (NewDiffingSandbox (sb_env sb)) = true
   /\ all_good (StartManager sb (the_reconciler name)) = true)
  /\ testing.calls
       (e2e.run quiet_run (name, e2e.TestCreatesSecureCluster initial_globals))
     = [CreateActiveEnvForTest the_env; Start the_env;
        NewDiffingSandbox (sb_env sb); StartManager sb (the_reconciler name);
        Run "creates 3-node secure cluster"; Create sb (cluster b);
        RequireClusterToBeReadyEventuallyTimeout sb b 500000000000%Z;
        RequireDatabaseToFunction sb b;
        Log "Done with basic cluster"; Stop the_env]
  /\ testing.verdict
       (e2e.run quiet_run (name, e2e.TestCreatesSecureCluster initial_globals))
     = testing.PASS.
Proof.
  intros name sb b.
  split; [repeat split |].
  destruct (secure_cluster_scenario initial_globals quiet_run
              eq_refl eq_refl eq_refl eq_refl) as [Hc Hv].
  split; [exact Hc | apply Hv; repeat split].
Defined.

Lemma non_crdb_image_scenario_witness :
  let name := "TestCreateSecureClusterWithNonCRDBImage" in
  let sb := the_sandbox name in
  let b := secure_cluster "nginx:latest" in
  (flag.deref "test.short" (testing.flags stuck_run) = false
   /\ stuck_world (Start the_env) = true
   /\ stuck_world (NewDiffingSandbox (sb_env sb)) = true
   /\ stuck_world (StartManager sb (the_reconciler name)) = true)
  /\ testing.calls
       (e2e.run stuck_run
          (name, e2e.TestCreateSecureClusterWithNonCRDBImage initial_globals))
     = [CreateActiveEnvForTest the_env; Start the_env;
        NewDiffingSandbox (sb_env sb); StartManager sb (the_reconciler name);
        Run "creates 3-node secure cluster with invalid image";
        Create sb (cluster b); RequireClusterInFailedState sb b;
        Stop the_env]
  /\ testing.verdict
       (e2e.run stuck_run
          (name, e2e.TestCreateSecureClusterWithNonCRDBImage initial_globals))
     <> testing.PASS.
Proof.
  intros name sb b.
  split; [repeat split |].
  destruct (non_crdb_image_scenario initial_globals stuck_run
              eq_refl eq_refl eq_refl eq_refl) as [Hc Hv].
  split; [exact Hc |].
  intros Hp. apply Hv in Hp as (_ & Hf). discriminate Hf.
Defined.

Lemma failed_start_panics_witness :
  (flag.deref "test.short" (testing.flags no_start_run) = false
   /\ testing.world no_start_run (Start the_env) = false)
  /\ Forall (fun test =>
       testing.calls (e2e.run no_start_run test)
       = [CreateActiveEnvForTest the_env; Start the_env]
       /\ testing.verdict (e2e.run no_start_run test) = testing.PANIC
       /\ existsb is_Stop (testing.calls (e2e.run no_start_run test)) = false)
       (e2e.suite initial_globals).
Proof.
  split; [split; reflexivity |].
  exact (failed_start_panics initial_globals no_start_run eq_refl eq_refl).
Defined.
